(** * mui-data-table: the filter row editor and the table renderer

    A shallow embedding of [FilterRow.component.tsx] (the [FilterRow]
    component) and of the [_Table] component, with the properties of the
    specification that concern them.

    JavaScript values are modelled as they are at run time: numbers are
    IEEE 754 binary64 values ([spec_float]), nullable strings are
    [option string] ([None] is [null]), objects used as dictionaries are
    [gmap]s with string keys.  The objects that the code shares and mutates
    (the filter held in the React state and handed to the debounced
    submission) live in a store and are named by references.

    A mounted component is a transition system: an event is a user action
    or the passing of time, and a step runs the handler, the render and the
    effect that follow it. The props, the callbacks among them, are taken
    to keep their identity between renders. *)

From Stdlib Require Import ZArith String Ascii List Bool Lia.
From Stdlib Require Import Floats.SpecFloat.
From stdpp Require Import base option list gmap strings pretty.

Local Open Scope string_scope.
Local Open Scope list_scope.

(** ** JavaScript values *)

(** A JavaScript number: an IEEE 754 binary64 value. *)
Definition number : Type := spec_float.

(** The number that an integer literal or an integer-valued string denotes:
    the integer rounded to the nearest binary64 value. [negzero] gives the
    sign of a zero result. *)
Definition number_of_Z (z : Z) (negzero : bool) : number :=
  binary_normalize 53 1024 z 0 negzero.

Definition NaN : number := S754_nan.

(** The values a filter can hold (a primitive, an array or [null]), also
    used for the properties of an object that the components only carry. *)
#[warnings="-register-all"] Inductive JsValue : Type :=
  | VUndefined
  | VNull
  | VBool (b : bool)
  | VNum (n : number)
  | VStr (s : string)
  | VArr (elems : list JsValue).

Inductive JsType : Type :=
  | TUndefined | TObject | TBoolean | TNumber | TString.

(** [typeof v] *)
Definition typeof (v : JsValue) : JsType :=
  match v with
  | VUndefined => TUndefined
  | VNull => TObject
  | VBool _ => TBoolean
  | VNum _ => TNumber
  | VStr _ => TString
  | VArr _ => TObject
  end.

Definition JsType_eqb (a b : JsType) : bool :=
  match a, b with
  | TUndefined, TUndefined | TObject, TObject | TBoolean, TBoolean
  | TNumber, TNumber | TString, TString => true
  | _, _ => false
  end.

(** A string is truthy when it is not empty. *)
Definition truthy_string (s : string) : bool :=
  match s with
  | EmptyString => false
  | String _ _ => true
  end.

(** A number is truthy unless it is [+0], [-0] or [NaN]. *)
Definition truthy_number (n : number) : bool :=
  match n with
  | S754_zero _ => false
  | S754_nan => false
  | S754_infinity _ => true
  | S754_finite _ _ _ => true
  end.

(** [Boolean(v)], the truthiness that [!v], [&&] and [||] test. *)
Definition ToBoolean (v : JsValue) : bool :=
  match v with
  | VUndefined => false
  | VNull => false
  | VBool b => b
  | VNum n => truthy_number n
  | VStr s => truthy_string s
  | VArr _ => true
  end.

(** Truthiness of a nullable string ([null] is falsy). *)
Definition truthy_nullable (o : option string) : bool :=
  match o with
  | Some s => truthy_string s
  | None => false
  end.

(** [s.includes(search)]: [search] occurs in [s] as a substring. *)
Fixpoint includes (s search : string) : bool :=
  String.prefix search s
  || match s with
     | EmptyString => false
     | String _ rest => includes rest search
     end.

(** [o?.includes(search)] used as a condition: [undefined] (for a nullish
    [o]) is falsy. *)
Definition includes_opt (o : option string) (search : string) : bool :=
  match o with
  | Some s => includes s search
  | None => false
  end.

(** [Object.values(m)] and [Object.keys(m)] of a dictionary. The order of
    the entries is the map's; the code only uses order-independent
    operations on them ([length], [every], a [reduce] that inserts
    constant values). *)
Definition Object_values {A} (m : gmap string A) : list A :=
  (map_to_list m).*2.

Definition Object_keys {A} (m : gmap string A) : list string :=
  (map_to_list m).*1.

(** *** [parseInt(s, 10)] *)

(** White space that [parseInt] skips, among the code units below 256. *)
Definition is_white_space (c : ascii) : bool :=
  let n := nat_of_ascii c in
  (n =? 9)%nat || (n =? 10)%nat || (n =? 11)%nat || (n =? 12)%nat
  || (n =? 13)%nat || (n =? 32)%nat || (n =? 160)%nat.

Definition digit_value (c : ascii) : option Z :=
  let n := nat_of_ascii c in
  if ((48 <=? n) && (n <=? 57))%nat then Some (Z.of_nat n - 48)%Z else None.

Fixpoint trim_start (s : string) : string :=
  match s with
  | String c rest => if is_white_space c then trim_start rest else s
  | EmptyString => EmptyString
  end.

(** The decimal digits at the start of [s], read left to right onto the
    accumulator; [None] when [s] does not start with a digit. *)
Fixpoint read_digits (acc : option Z) (s : string) : option Z :=
  match s with
  | String c rest =>
      match digit_value c with
      | Some d => read_digits (Some (10 * default 0%Z acc + d)%Z) rest
      | None => acc
      end
  | EmptyString => acc
  end.

(** [parseInt(s, 10)]: skip leading white space, read an optional sign and
    the longest run of decimal digits; [NaN] when there is no digit. *)
Definition parseInt (s : string) : number :=
  let trimmed := trim_start s in
  let '(sign, body) :=
    match trimmed with
    | String "-" rest => (true, rest)
    | String "+" rest => (false, rest)
    | _ => (false, trimmed)
    end in
  match read_digits None body with
  | None => NaN
  | Some mathInt => number_of_Z (if sign then - mathInt else mathInt)%Z sign
  end.

(** ** The filter row editor ([FilterRow]) *)

(** One filter predicate. [path], [operator] and [type] are nullable
    strings, [value] is any filter value; [other] holds the own properties
    of the object that the component does not read and that object spread
    carries along. *)
Record Filter : Type := mkFilter {
  path : option string;
  operator : option string;
  value : JsValue;
  type : option string;
  other : gmap string JsValue
}.

Definition EMPTY_FILTER : Filter :=
  {| path := None; operator := Some "="; value := VStr ""; type := None;
     other := ∅ |}.

Definition set_value (v : JsValue) (f : Filter) : Filter :=
  {| path := path f; operator := operator f; value := v; type := type f;
     other := other f |}.

(** *** Operator options *)

(** An entry of the static operator catalog: the operator id and an
    optional map from a data-type tag, or from the key [default], to a
    display label. *)
Record Operator : Type := mkOperator {
  op_value : string;
  typeLabelMap : option (gmap string string)
}.

(** An entry of the operator select: [label] is [None] when the code's
    expression yields [undefined]. *)
Record OperatorOption : Type := mkOperatorOption {
  oo_label : option string;
  oo_value : string
}.

(** The predicate of [OPERATORS.filter]:
    [!o.typeLabelMap || o.typeLabelMap.default
     || (Boolean(type) && type in o.typeLabelMap)]. *)
Definition operator_offered (type : option string) (o : Operator) : bool :=
  match typeLabelMap o with
  | None => true
  | Some m =>
      truthy_nullable (m !! "default")
      || match type with
         | Some t => truthy_string t && bool_decide (is_Some (m !! t))
         | None => false
         end
  end.

(** The label of [.map]:
    [!o.typeLabelMap ? o.value
     : (type && o.typeLabelMap[type]) ?? o.typeLabelMap.default]. *)
Definition operator_label (type : option string) (o : Operator) : option string :=
  match typeLabelMap o with
  | None => Some (op_value o)
  | Some m =>
      let specific :=
        match type with
        | Some t => if truthy_string t then m !! t else Some t
        | None => None
        end in
      match specific with
      | Some l => Some l
      | None => m !! "default"
      end
  end.

Section Catalog.

(** The catalog is imported from [_dataTable.consts]. *)
Variable OPERATORS : list Operator.

Definition getOperatorOptions (type : option string) : list OperatorOption :=
  map (fun o => {| oo_label := operator_label type o; oo_value := op_value o |})
      (List.filter (operator_offered type) OPERATORS).

End Catalog.

(** *** Validation *)

Record Errors : Type := mkErrors {
  err_path : bool;
  err_operator : bool;
  err_value : bool
}.

(** The object [errs] that the validation effect builds. *)
Definition validate (f : Filter) : Errors :=
  {| err_path := negb (truthy_nullable (path f));
     err_operator := negb (truthy_nullable (operator f));
     err_value :=
       negb (includes_opt (operator f) "exists")
       && negb (JsType_eqb (typeof (value f)) TBoolean)
       && negb (JsType_eqb (typeof (value f)) TNumber)
       && negb (ToBoolean (value f)) |}.

(** [Object.values(errs).some((v) => v)] *)
Definition hasError (errs : Errors) : bool :=
  existsb (fun v => v) [err_path errs; err_operator errs; err_value errs].

(** *** Component state *)

(** An entry of the column select, as the table context provides it. *)
Record FilterOption : Type := mkFilterOption {
  fo_label : string;
  fo_value : string;
  fo_type : option string;
  defaultOperator : option string
}.

Record Props : Type := mkProps {
  prop_value : Filter;
  prop_last : bool;
  prop_name : string
}.

(** A call of one of the parent's callbacks, with the contents of its
    argument at the time of the call. *)
Inductive ParentCall : Type :=
  | OnSubmit (values : Filter)
  | OnRemove (value : Filter).

(** A reference to a filter object of the store. *)
Definition ref : Type := nat.

(** The state of a mounted [FilterRow]:
    - [store]: the filter objects created so far;
    - [filter_ref]: the object that the React state [filter] holds;
    - [errors]: the React state [errors];
    - [timeout]: the pending timer of the debounced submission, with the
      milliseconds left and the argument it will pass to [handleSubmit];
    - [debounced]: the arguments of the calls of [debouncedSubmit] so far;
    - [calls]: the calls of [onSubmit] and [onRemove] so far. *)
Record State : Type := mkState {
  store : list Filter;
  filter_ref : ref;
  errors : Errors;
  timeout : option (nat * ref);
  debounced : list ref;
  calls : list ParentCall
}.

(** [handleSubmit(values)]: [values.value] is overwritten with [null] in
    the object itself when the value is falsy or the operator includes
    ["exists"], then the object goes to [onSubmit]. The result is [None]
    when the call throws: [values.operator.includes] is evaluated, for a
    truthy value, on a [null] operator. *)
Definition handleSubmit (values : ref) (s : State) : option State :=
  f ← store s !! values;
  overwrite ←
    (if negb (ToBoolean (value f)) then Some true
     else op ← operator f; Some (includes op "exists"));
  let f' := if overwrite : bool then set_value VNull f else f in
  Some {| store := <[values := f']> (store s);
          filter_ref := filter_ref s;
          errors := errors s;
          timeout := timeout s;
          debounced := debounced s;
          calls := calls s ++ [OnSubmit f'] |}.

(** The wait of [debounce(handleSubmit, 500)], in milliseconds. *)
Definition WAIT : nat := 500.

(** [debouncedSubmit(values)]: the pending timer, if any, is cleared and a
    new one is set. *)
Definition debouncedSubmit (values : ref) (s : State) : State :=
  {| store := store s;
     filter_ref := filter_ref s;
     errors := errors s;
     timeout := Some (WAIT, values);
     debounced := debounced s ++ [values];
     calls := calls s |}.

Definition setErrors (errs : Errors) (s : State) : State :=
  {| store := store s;
     filter_ref := filter_ref s;
     errors := errs;
     timeout := timeout s;
     debounced := debounced s;
     calls := calls s |}.

(** The effect that runs after the first render and after every change of
    [filter]. *)
Definition validationEffect (s : State) : State :=
  match store s !! filter_ref s with
  | Some f =>
      let errs := validate f in
      let s1 := setErrors errs s in
      if hasError errs then s1 else debouncedSubmit (filter_ref s) s1
  | None => s
  end.

(** [setFilter((currValues) => updater(currValues))]: the new state is a
    new object; the component renders again and the effect runs. *)
Definition setFilter (updater : Filter -> Filter) (s : State) : State :=
  match store s !! filter_ref s with
  | Some currValues =>
      validationEffect
        {| store := store s ++ [updater currValues];
           filter_ref := length (store s);
           errors := errors s;
           timeout := timeout s;
           debounced := debounced s;
           calls := calls s |}
  | None => s
  end.

(** The updaters of the three change handlers. *)
Definition columnChanged (selected : option FilterOption) (currValues : Filter) : Filter :=
  {| path := fo_value <$> selected;
     type := selected ≫= fo_type;
     operator := selected ≫= defaultOperator;
     value := VStr "";
     other := other currValues |}.

Definition operatorChanged (selected : option OperatorOption) (currValues : Filter) : Filter :=
  {| path := path currValues;
     type := type currValues;
     operator := oo_value <$> selected;
     value := value currValues;
     other := other currValues |}.

Definition valueChanged (newValue : JsValue) (currValues : Filter) : Filter :=
  {| path := path currValues;
     type := type currValues;
     operator := operator currValues;
     value := newValue;
     other := other currValues |}.

Definition handleColumnChange (selected : option FilterOption) : State -> State :=
  setFilter (columnChanged selected).

Definition handleOperatorChange (selected : option OperatorOption) : State -> State :=
  setFilter (operatorChanged selected).

Definition handleValueChange (newValue : JsValue) : State -> State :=
  setFilter (valueChanged newValue).

(** [handleRemove()]: the prop [value] goes to [onRemove]. *)
Definition handleRemove (props : Props) (s : State) : State :=
  {| store := store s;
     filter_ref := filter_ref s;
     errors := errors s;
     timeout := timeout s;
     debounced := debounced s;
     calls := calls s ++ [OnRemove (prop_value props)] |}.

(** *** What is rendered *)

(** [disabled={last && !value.path}] of the remove button. *)
Definition removeDisabled (props : Props) : bool :=
  prop_last props && negb (truthy_nullable (path (prop_value props))).

(** [!filter.operator?.includes("exists")]: the value field is shown. *)
Definition valueFieldShown (f : Filter) : bool :=
  negb (includes_opt (operator f) "exists").

(** *** The component as a transition system *)

(** The first render: the state is [{ ...EMPTY_FILTER, ...value }], a new
    object in which every property of the prop overrides the empty
    filter's. *)
Definition initialFilter (v : Filter) : Filter :=
  {| path := path v; operator := operator v; value := value v;
     type := type v; other := other v ∪ other EMPTY_FILTER |}.

Definition mount (props : Props) : State :=
  validationEffect
    {| store := [initialFilter (prop_value props)];
       filter_ref := 0;
       errors := {| err_path := false; err_operator := false; err_value := false |};
       timeout := None;
       debounced := [];
       calls := [] |}.

Inductive Event : Type :=
  | ColumnChange (selected : option FilterOption)
  | OperatorChange (selected : option OperatorOption)
  | ValueChange (newValue : JsValue)
  | RemoveClick
  | Elapse (ms : nat).

(** [ms] milliseconds pass: a pending timer runs down, and fires
    [handleSubmit] on its argument when it reaches zero. *)
Definition elapse (ms : nat) (s : State) : option State :=
  match timeout s with
  | Some (remaining, values) =>
      if (ms <? remaining)%nat then
        Some {| store := store s;
                filter_ref := filter_ref s;
                errors := errors s;
                timeout := Some (remaining - ms, values);
                debounced := debounced s;
                calls := calls s |}
      else
        handleSubmit values
          {| store := store s;
             filter_ref := filter_ref s;
             errors := errors s;
             timeout := None;
             debounced := debounced s;
             calls := calls s |}
  | None => Some s
  end.

(** One event. A disabled remove button produces no click, a value field
    that is not rendered no change. [None]: a handler threw. *)
Definition step (props : Props) (s : State) (e : Event) : option State :=
  match e with
  | ColumnChange selected => Some (handleColumnChange selected s)
  | OperatorChange selected => Some (handleOperatorChange selected s)
  | ValueChange newValue =>
      match store s !! filter_ref s with
      | Some f =>
          if valueFieldShown f then Some (handleValueChange newValue s) else Some s
      | None => Some s
      end
  | RemoveClick =>
      if removeDisabled props then Some s else Some (handleRemove props s)
  | Elapse ms => elapse ms s
  end.

Fixpoint run (props : Props) (s : State) (events : list Event) : option State :=
  match events with
  | [] => Some s
  | e :: rest => s' ← step props s e; run props s' rest
  end.

(** ** The table renderer ([_Table]) *)

(** A data row, and what a footer function returns. *)
Definition Row : Type := gmap string JsValue.
Definition ReactNode : Type := string.

(** An entry of [structure]: a column definition, possibly a column group
    with nested definitions. *)
#[warnings="-register-all"] Inductive ColumnDefinition : Type := mkColumnDefinition {
  col_key : string;
  colGroup : option (list ColumnDefinition);
  col_footer : option (list Row -> ReactNode)
}.

(** An entry of [structure.flattened], with the flags that the table
    context computes for it. *)
Record FlatColumn : Type := mkFlatColumn {
  struct_key : string;
  struct_footer : option (list Row -> ReactNode);
  isColGroup : bool;
  struct_hasColGroupFooter : bool
}.

(** The part of the table context that the renderer's footer, "show all"
    button and pagination read. *)
Record TableState : Type := mkTableState {
  allTableData : list Row;
  structure : list ColumnDefinition;
  flattened : list FlatColumn;
  enableHiddenColumns : bool;
  hiddenColumns : gmap string bool
}.

(** [Boolean(x)] of an optional function or array: defined is truthy. *)
Definition defined {A} (o : option A) : bool :=
  match o with
  | Some _ => true
  | None => false
  end.

Definition allColumnsVisible (hidden : gmap string bool) : bool :=
  let values := Object_values hidden in
  (length values =? 0)%nat || forallb (fun value => negb value) values.

Definition hasFooter (st : TableState) : bool :=
  existsb (fun struct => defined (struct_footer struct)) (flattened st).

Definition hasColGroupFooter (st : TableState) : bool :=
  existsb (fun struct => defined (colGroup struct) && defined (col_footer struct))
          (structure st).

(** *** The footer *)

(** The props of a rendered [TableCell]; a prop that is not passed is
    [None]. *)
Record TableCell : Type := mkTableCell {
  cell_key : string;
  rowSpan : option nat;
  colSpan : option nat;
  children : ReactNode
}.

Definition plainFooterCell (st : TableState) (struct : FlatColumn) : TableCell :=
  {| cell_key := struct_key struct;
     rowSpan :=
       Some (if hasColGroupFooter st
                && (negb (isColGroup struct) || negb (struct_hasColGroupFooter struct))
             then 2 else 1);
     colSpan := None;
     children :=
       match struct_footer struct with
       | Some f => f (allTableData st)
       | None => ""
       end |}.

(** An entry of the group row: a cell, or [null]. *)
Definition groupFooterCell (st : TableState) (struct : ColumnDefinition) : option TableCell :=
  match colGroup struct, col_footer struct with
  | Some group, Some f =>
      Some {| cell_key := col_key struct;
              rowSpan := None;
              colSpan := Some (length group);
              children := f (allTableData st) |}
  | _, _ => None
  end.

(** The rows of [<TableFooter>]; a row that is not rendered is [None]. *)
Record TableFooter : Type := mkTableFooter {
  plainRow : option (list TableCell);
  groupRow : option (list (option TableCell))
}.

Definition renderFooter (st : TableState) : option TableFooter :=
  if hasFooter st || hasColGroupFooter st then
    Some {| plainRow :=
              if hasFooter st then Some (map (plainFooterCell st) (flattened st))
              else None;
            groupRow :=
              if hasColGroupFooter st then Some (map (groupFooterCell st) (structure st))
              else None |}
  else None.

(** *** The "show all" button *)

Record Button : Type := mkButton {
  text : string;
  disabled : bool
}.

(** [enableHiddenColumns && <Button disabled={allColumnsVisible}>]. *)
Definition showAllButton (st : TableState) : option Button :=
  if enableHiddenColumns st then
    Some {| text := "Show all"; disabled := allColumnsVisible (hiddenColumns st) |}
  else None.

(** *** Calls of the external update interface *)

(** The object literal [{ rowsPerPage, page }]. *)
Record PaginationPatch : Type := mkPaginationPatch {
  rowsPerPage : number;
  page : number
}.

Inductive UpdateCall : Type :=
  | Update (patch : PaginationPatch)
  | UpdatePage (newPage : number)
  | UpdateHiddenColumns (updater : gmap string bool -> gmap string bool)
  | UpdateSelectedRows (rows : gmap string Row).

(** The change event of the rows-per-page select: [e.target.value]. *)
Record ChangeEvent : Type := mkChangeEvent {
  target_value : string
}.

(** Each handler appends its calls of [update] to the calls so far. *)
Definition onPageChange (newPage : number) (log : list UpdateCall) : list UpdateCall :=
  log ++ [UpdatePage newPage].

Definition onRowsPerPageChange (e : ChangeEvent) (log : list UpdateCall) : list UpdateCall :=
  let newRowsPerPage := parseInt (target_value e) in
  log ++ [Update {| rowsPerPage := newRowsPerPage; page := number_of_Z 0 false |}].

(** The updater of [handleShowAll]:
    [Object.keys(curr).reduce((prev, key) => ({ ...prev, [key]: false }), {})]. *)
Definition showAll (currHiddenColumns : gmap string bool) : gmap string bool :=
  foldl (fun prev key => <[key := false]> prev) ∅ (Object_keys currHiddenColumns).

Definition handleShowAll (log : list UpdateCall) : list UpdateCall :=
  log ++ [UpdateHiddenColumns showAll].

Definition handleClearSelection (log : list UpdateCall) : list UpdateCall :=
  log ++ [UpdateSelectedRows ∅].

(** *** The selection footer *)

(** [disabled={!Object.values(selectedRows).length}] of the "Clear
    Selection" button. *)
Definition clearSelectionDisabled (selectedRows : gmap string Row) : bool :=
  (length (Object_values selectedRows) =? 0)%nat.

(** The count in "[n] of [rowsPerPage] selected". *)
Definition selectedCount (selectedRows : gmap string Row) : nat :=
  length (Object_values selectedRows).

(** * The specification *)

(** ** The words of the specification *)

(** A nullable string is non-empty: it is a string, and not [""]. *)
Definition non_empty (o : option string) : Prop :=
  exists s, o = Some s /\ s <> "".

(** A value is present: something was entered. *)
Definition value_present (v : JsValue) : Prop :=
  v <> VUndefined /\ v <> VNull /\ v <> VStr "".

Definition boolean_or_numeric (v : JsValue) : Prop :=
  typeof v = TBoolean \/ typeof v = TNumber.

(** The operator denotes an existence check: the component recognises it
    by the substring ["exists"]. *)
Definition existence_operator (o : option string) : Prop :=
  exists op, o = Some op /\ includes op "exists" = true.

(** A filter that is eligible for submission. *)
Definition eligible (f : Filter) : Prop :=
  non_empty (path f) /\ non_empty (operator f)
  /\ (value_present (value f) \/ boolean_or_numeric (value f)
      \/ existence_operator (operator f)).

(** A filter that has both a path and an operator. *)
Definition complete (f : Filter) : Prop :=
  non_empty (path f) /\ non_empty (operator f).

(** The invariant of a mounted row: the state holds an object of the
    store, a pending timer holds a complete filter, and only complete
    filters went to [onSubmit]. *)
Definition consistent (s : State) : Prop :=
  filter_ref s < length (store s)
  /\ (forall remaining values,
        timeout s = Some (remaining, values) ->
        exists f, store s !! values = Some f /\ complete f)
  /\ (forall f, OnSubmit f ∈ calls s -> complete f).

(** The filter that the selection of ["exists"] submits for a row whose
    filter is [f]. *)
Definition exists_filter (f : Filter) : Filter :=
  {| path := path f; operator := Some "exists"; value := VNull;
     type := type f; other := other f |}.

(** The filter goes to [onSubmit] in the very step that selects the
    operator. *)
Definition submitted_at_once
    (props : Props) (s : State) (f : Filter) (selected : OperatorOption) : Prop :=
  exists s',
    step props s (OperatorChange (Some selected)) = Some s'
    /\ calls s' = calls s ++ [OnSubmit (exists_filter f)].

(** The column belongs to a column group that has a group footer. *)
Definition in_group_with_footer (struct : FlatColumn) : Prop :=
  isColGroup struct = true /\ struct_hasColGroupFooter struct = true.

(** The label that an operator declares for a data type, and its default
    label. *)
Definition type_label (type : option string) (o : Operator) : option string :=
  m ← typeLabelMap o; t ← type; m !! t.

Definition default_label (o : Operator) : option string :=
  m ← typeLabelMap o; m !! "default".

(** The operators that the specification lists for a data type: those with
    no type-label map, with a default label, or with a label for the
    type. *)
Definition listed (type : option string) (o : Operator) : Prop :=
  typeLabelMap o = None \/ is_Some (default_label o) \/ is_Some (type_label type o).

(** The label that the specification gives an option: the label for the
    type, else the default label, else the operator id. *)
Definition display_label (type : option string) (o : Operator) : string :=
  match type_label type o with
  | Some l => l
  | None =>
      match default_label o with
      | Some l => l
      | None => op_value o
      end
  end.

#[local] Instance listed_dec type o : Decision (listed type o).
Proof.
  unfold listed. destruct (typeLabelMap o) as [m|].
  - destruct (decide (is_Some (default_label o))) as [Hd|Hd]; [left; auto|].
    destruct (decide (is_Some (type_label type o))) as [Ht|Ht]; [left; auto|].
    right. intros [H|[H|H]]; [discriminate|contradiction|contradiction].
  - left. left. reflexivity.
Defined.

(** The option list as the specification describes it. *)
Definition listed_options (OPERATORS : list Operator) (type : option string) :
    list OperatorOption :=
  map (fun o => {| oo_label := Some (display_label type o); oo_value := op_value o |})
      (filter (listed type) OPERATORS).

(** The assumptions on the inputs: a data-type tag is not the empty string,
    and no default label of the catalog is. *)
Definition tag_ok (type : option string) : Prop := type <> Some "".

Definition label_ok (o : Operator) : Prop :=
  forall l, default_label o = Some l -> l <> "".

(** ** Notions for the behaviour over time *)

(** The object that [handleSubmit] hands to [onSubmit] for a filter: its
    value is [null] when it was falsy or the operator includes ["exists"],
    and the filter is as it was otherwise. *)
Definition as_submitted (f : Filter) : Filter :=
  if negb (ToBoolean (value f)) || includes_opt (operator f) "exists"
  then set_value VNull f else f.

Definition is_submit (c : ParentCall) : bool :=
  match c with
  | OnSubmit _ => true
  | OnRemove _ => false
  end.

(** The number of calls of [onSubmit] among the calls. *)
Definition submissions (cs : list ParentCall) : nat :=
  length (List.filter is_submit cs).

(** The number of pending timers of the debounced submission. *)
Definition pending (s : State) : nat :=
  match timeout s with
  | Some _ => 1
  | None => 0
  end.

(** An event that is no change of the column select. *)
Definition no_column_change (e : Event) : Prop :=
  match e with
  | ColumnChange _ => False
  | _ => True
  end.

(** ** Example inputs *)

(** A row on the column ["age"] in which no value was entered yet. *)
Definition age_filter : Filter :=
  {| path := Some "age"; operator := Some "="; value := VStr "";
     type := Some "number"; other := ∅ |}.

Definition age_row : Props :=
  {| prop_value := age_filter; prop_last := true; prop_name := "filter-0" |}.

(** The same row once the user has typed [0]. *)
Definition age_zero : Filter :=
  {| path := Some "age"; operator := Some "="; value := VNum (S754_zero false);
     type := Some "number"; other := ∅ |}.

(** A filter with an existence operator that still carries a value. *)
Definition name_missing : Filter :=
  {| path := Some "name"; operator := Some "!exists"; value := VStr "Ann";
     type := Some "string"; other := ∅ |}.

Definition name_row : Props :=
  {| prop_value := name_missing; prop_last := false; prop_name := "filter-1" |}.

Definition exists_option : OperatorOption :=
  {| oo_label := Some "exists"; oo_value := "exists" |}.

Definition greater_option : OperatorOption :=
  {| oo_label := Some ">"; oo_value := ">" |}.

Definition zero_row : Props :=
  {| prop_value := age_zero; prop_last := true; prop_name := "filter-0" |}.

(** The trailing placeholder row: no column is selected. *)
Definition empty_row : Props :=
  {| prop_value := EMPTY_FILTER; prop_last := true; prop_name := "filter-2" |}.

Definition name_column : FilterOption :=
  {| fo_label := "Name"; fo_value := "name"; fo_type := Some "string";
     defaultOperator := Some "~" |}.

Definition example_catalog : list Operator :=
  [ {| op_value := "exists"; typeLabelMap := None |};
    {| op_value := "="; typeLabelMap := Some {[ "default" := "="; "date" := "is" ]} |};
    {| op_value := "~"; typeLabelMap := Some {[ "string" := "contains" ]} |};
    {| op_value := ">"; typeLabelMap := Some {[ "number" := ">"; "date" := "is after" ]} |} ].

Definition example_table : TableState :=
  {| allTableData := [];
     structure := [];
     flattened := [];
     enableHiddenColumns := true;
     hiddenColumns := {[ "age" := false; "name" := true ]} |}.

(** * Properties *)

(** ** JavaScript primitives *)

Lemma truthy_string_true s : truthy_string s = true <-> s <> "".
Proof. destruct s; simpl; split; congruence. Qed.

Lemma truthy_nullable_true o : truthy_nullable o = true <-> non_empty o.
Proof.
  unfold non_empty. destruct o as [s|]; simpl.
  - rewrite truthy_string_true. split.
    + intros Hs. exists s. auto.
    + intros (s' & Heq & Hs). congruence.
  - split; [discriminate|]. intros (s & Heq & _). discriminate.
Qed.

Lemma truthy_nullable_false o : truthy_nullable o = false <-> ~ non_empty o.
Proof.
  rewrite <- truthy_nullable_true. destruct (truthy_nullable o); split; congruence.
Qed.

(** The falsy values are [undefined], [null], [false], the two zeros, [NaN]
    and the empty string. *)
Lemma ToBoolean_false v :
  ToBoolean v = false <->
  v = VUndefined \/ v = VNull \/ v = VBool false
  \/ (exists sign, v = VNum (S754_zero sign)) \/ v = VNum NaN \/ v = VStr "".
Proof.
  split.
  - destruct v as [| |[]|[]|[]|]; simpl; try discriminate; eauto 10.
  - intros [->|[->|[->|[[sign ->]|[->| ->]]]]]; reflexivity.
Qed.

Lemma prefix_app search post : String.prefix search (String.append search post) = true.
Proof.
  induction search as [|c search IH]; simpl.
  - destruct post; reflexivity.
  - destruct (ascii_dec c c); [exact IH|congruence].
Qed.

Lemma prefix_inv search s :
  String.prefix search s = true -> exists post, s = String.append search post.
Proof.
  revert s. induction search as [|c search IH]; intros s H.
  - exists s. reflexivity.
  - destruct s as [|d s]; simpl in H; [discriminate|].
    destruct (ascii_dec c d) as [->|]; [|discriminate].
    destruct (IH _ H) as [post ->]. exists post. reflexivity.
Qed.

Lemma includes_eq s search :
  includes s search =
  String.prefix search s
  || match s with
     | EmptyString => false
     | String _ rest => includes rest search
     end.
Proof. destruct s; reflexivity. Qed.

(** [includes] is the substring test. *)
Lemma includes_substring s search :
  includes s search = true <->
  exists pre post, s = String.append pre (String.append search post).
Proof.
  split.
  - induction s as [|c s IH]; rewrite includes_eq, orb_true_iff; intros [H|H].
    + apply prefix_inv in H as [post ->]. exists "", post. reflexivity.
    + discriminate.
    + apply prefix_inv in H as [post ->]. exists "", post. reflexivity.
    + destruct (IH H) as (pre & post & ->). exists (String c pre), post. reflexivity.
  - intros (pre & post & ->). induction pre as [|c pre IH].
    + rewrite includes_eq. change (String.append "" (String.append search post))
        with (String.append search post).
      rewrite prefix_app. reflexivity.
    + change (String.append (String c pre) (String.append search post))
        with (String c (String.append pre (String.append search post))).
      rewrite includes_eq, IH. apply orb_true_r.
Qed.

(** ** Validation *)

Lemma err_value_false f :
  err_value (validate f) = false <->
  value_present (value f) \/ boolean_or_numeric (value f)
  \/ existence_operator (operator f).
Proof.
  unfold validate, value_present, boolean_or_numeric, existence_operator; simpl.
  destruct (operator f) as [op|]; simpl.
  - destruct (includes op "exists") eqn:Hop; simpl.
    + split; [|reflexivity]. intros _. right; right. eauto.
    + destruct (value f) as [| |b|n|[|c s]|l]; simpl; split; intros H;
        try discriminate; try reflexivity; try (right; left; auto; fail);
        try (left; repeat split; congruence);
        destruct H as [(H1 & H2 & H3)|[[H|H]|(op' & Heq & Hin)]];
        congruence.
  - destruct (value f) as [| |b|n|[|c s]|l]; simpl; split; intros H;
      try discriminate; try reflexivity; try (right; left; auto; fail);
      try (left; repeat split; congruence);
      destruct H as [(H1 & H2 & H3)|[[H|H]|(op' & Heq & Hin)]];
      congruence.
Qed.

Lemma hasError_false f : hasError (validate f) = false <-> eligible f.
Proof.
  unfold eligible. rewrite <- err_value_false, <- !truthy_nullable_true.
  unfold hasError. cbn [existsb].
  change (err_path (validate f)) with (negb (truthy_nullable (path f))).
  change (err_operator (validate f)) with (negb (truthy_nullable (operator f))).
  generalize (err_value (validate f)) as ev.
  destruct (truthy_nullable (path f)), (truthy_nullable (operator f));
    intros []; simpl; intuition discriminate.
Qed.

Lemma hasError_true f : hasError (validate f) = true <-> ~ eligible f.
Proof.
  rewrite <- hasError_false. destruct (hasError (validate f)); split; congruence.
Qed.

Lemma list_snoc_neq {A} (l : list A) (x : A) : l ++ [x] <> l.
Proof.
  intros H. apply (f_equal (@length A)) in H. rewrite length_app in H.
  simpl in H. lia.
Qed.

(** ** The validation effect *)

Lemma validationEffect_store s : store (validationEffect s) = store s.
Proof.
  unfold validationEffect. destruct (store s !! filter_ref s); [|reflexivity].
  destruct (hasError _); reflexivity.
Qed.

Lemma validationEffect_filter_ref s : filter_ref (validationEffect s) = filter_ref s.
Proof.
  unfold validationEffect. destruct (store s !! filter_ref s); [|reflexivity].
  destruct (hasError _); reflexivity.
Qed.

Lemma validationEffect_calls s : calls (validationEffect s) = calls s.
Proof.
  unfold validationEffect. destruct (store s !! filter_ref s); [|reflexivity].
  destruct (hasError _); reflexivity.
Qed.

Lemma validationEffect_eligible s f :
  store s !! filter_ref s = Some f -> eligible f ->
  validationEffect s = debouncedSubmit (filter_ref s) (setErrors (validate f) s).
Proof.
  intros Hf He. unfold validationEffect. rewrite Hf.
  apply hasError_false in He. rewrite He. reflexivity.
Qed.

Lemma validationEffect_not_eligible s f :
  store s !! filter_ref s = Some f -> ~ eligible f ->
  validationEffect s = setErrors (validate f) s.
Proof.
  intros Hf He. unfold validationEffect. rewrite Hf.
  apply hasError_true in He. rewrite He. reflexivity.
Qed.

(** C1. After every change of the filter, the validation effect invokes the
    debounced submission (on the filter in the state) if and only if the
    path is non-empty, the operator is non-empty and the value is present,
    boolean or numeric, or the operator denotes an existence check; when it
    does not, and in particular when the path or the operator is missing,
    nothing is invoked and the pending timer is left as it was. *)
Theorem validation_submits_iff_eligible (s : State) (f : Filter) :
  store s !! filter_ref s = Some f ->
  (debounced (validationEffect s) = debounced s ++ [filter_ref s] <-> eligible f)
  /\ (~ eligible f ->
      debounced (validationEffect s) = debounced s
      /\ timeout (validationEffect s) = timeout s)
  /\ (~ non_empty (path f) \/ ~ non_empty (operator f) ->
      debounced (validationEffect s) = debounced s
      /\ timeout (validationEffect s) = timeout s).
Proof.
  intros Hf.
  assert (Hno : ~ eligible f ->
                debounced (validationEffect s) = debounced s
                /\ timeout (validationEffect s) = timeout s).
  { intros He. rewrite (validationEffect_not_eligible s f Hf He). auto. }
  split; [|split].
  - split.
    + intros Hd. destruct (hasError (validate f)) eqn:E.
      * apply hasError_true in E. destruct (Hno E) as [Hd' _].
        rewrite Hd' in Hd. symmetry in Hd. destruct (list_snoc_neq _ _ Hd).
      * apply hasError_false. exact E.
    + intros He. rewrite (validationEffect_eligible s f Hf He). reflexivity.
  - exact Hno.
  - intros Hmiss. apply Hno. unfold eligible. tauto.
Qed.

(** ** Submission *)

Lemma handleSubmit_overwrites s values f :
  store s !! values = Some f ->
  ToBoolean (value f) = false \/ existence_operator (operator f) ->
  handleSubmit values s =
  Some {| store := <[values := set_value VNull f]> (store s);
          filter_ref := filter_ref s;
          errors := errors s;
          timeout := timeout s;
          debounced := debounced s;
          calls := calls s ++ [OnSubmit (set_value VNull f)] |}.
Proof.
  intros Hf H. unfold handleSubmit. rewrite Hf. simpl.
  destruct (ToBoolean (value f)) eqn:Hv; simpl; [|reflexivity].
  destruct H as [H|(op & Hop & Hin)]; [discriminate|].
  rewrite Hop. simpl. rewrite Hin. reflexivity.
Qed.

Lemma handleSubmit_keeps s values f op :
  store s !! values = Some f ->
  ToBoolean (value f) = true -> operator f = Some op ->
  includes op "exists" = false ->
  handleSubmit values s =
  Some {| store := <[values := f]> (store s);
          filter_ref := filter_ref s;
          errors := errors s;
          timeout := timeout s;
          debounced := debounced s;
          calls := calls s ++ [OnSubmit f] |}.
Proof.
  intros Hf Hv Hop Hin. unfold handleSubmit. rewrite Hf. simpl.
  rewrite Hv. simpl. rewrite Hop. simpl. rewrite Hin. reflexivity.
Qed.

(** C2. When the operator of the submitted filter denotes an existence
    check, [onSubmit] receives the filter with [value] set to [null] and
    every other field as it was, whatever the value was before; the filter
    object itself holds [null] afterwards. *)
Theorem existence_submits_null (s : State) (values : ref) (f : Filter) :
  store s !! values = Some f ->
  existence_operator (operator f) ->
  exists s',
    handleSubmit values s = Some s'
    /\ calls s' = calls s ++ [OnSubmit (set_value VNull f)]
    /\ value (set_value VNull f) = VNull
    /\ store s' !! values = Some (set_value VNull f).
Proof.
  intros Hf Hop. eexists. split.
  - apply handleSubmit_overwrites; eauto.
  - simpl. repeat split. apply list_lookup_insert_eq.
    apply lookup_lt_Some in Hf. exact Hf.
Qed.

(** C4. When a filter with an operator that is no existence check is
    submitted and its value is falsy, the filter that [onSubmit] receives
    has the value [null], not the entered value, and is otherwise the
    filter as it was. A boolean or numeric value, which is not [null],
    does pass validation: for a filter in the state with non-empty path
    and operator, the submission is scheduled and, when the wait has
    passed, [onSubmit] receives the value [null]. *)
Theorem falsy_value_submits_null (s : State) (values : ref) (f : Filter) :
  store s !! values = Some f ->
  ~ existence_operator (operator f) ->
  ToBoolean (value f) = false ->
  (exists s' submitted,
      handleSubmit values s = Some s'
      /\ calls s' = calls s ++ [OnSubmit submitted]
      /\ submitted = set_value VNull f
      /\ value submitted = VNull
      /\ path submitted = path f
      /\ operator submitted = operator f
      /\ type submitted = type f
      /\ other submitted = other f)
  /\ (non_empty (path f) -> non_empty (operator f) ->
      boolean_or_numeric (value f) ->
      value f <> VNull
      /\ hasError (validate f) = false
      /\ (filter_ref s = values ->
          exists s' submitted,
            elapse WAIT (validationEffect s) = Some s'
            /\ calls s' = calls s ++ [OnSubmit submitted]
            /\ submitted = set_value VNull f
            /\ value submitted = VNull)).
Proof.
  intros Hf Hop Hv. split.
  - exists {| store := <[values := set_value VNull f]> (store s);
              filter_ref := filter_ref s;
              errors := errors s;
              timeout := timeout s;
              debounced := debounced s;
              calls := calls s ++ [OnSubmit (set_value VNull f)] |},
      (set_value VNull f).
    split; [apply handleSubmit_overwrites; eauto|].
    split; [reflexivity|]. split; [reflexivity|].
    split; [reflexivity|]. split; [reflexivity|]. split; [reflexivity|].
    split; reflexivity.
  - intros Hp Ho Hbn.
    assert (He : eligible f) by (unfold eligible; auto).
    split.
    { intros Hnull. rewrite Hnull in Hbn. destruct Hbn as [H|H]; discriminate H. }
    split; [apply hasError_false; exact He|].
    intros <-. rewrite (validationEffect_eligible s f Hf He).
    unfold elapse. cbn [timeout debouncedSubmit]. rewrite Nat.ltb_irrefl.
    eexists _, (set_value VNull f).
    split; [apply handleSubmit_overwrites; simpl; eauto|].
    split; [reflexivity|]. split; reflexivity.
Qed.

(** ** Column selection *)

Lemma setFilter_current s curr updater :
  store s !! filter_ref s = Some curr ->
  let s' := setFilter updater s in
  store s' = store s ++ [updater curr]
  /\ filter_ref s' = length (store s)
  /\ store s' !! filter_ref s' = Some (updater curr)
  /\ calls s' = calls s.
Proof.
  intros Hf. unfold setFilter. rewrite Hf. simpl.
  rewrite validationEffect_store, validationEffect_filter_ref,
    validationEffect_calls. simpl.
  repeat split. rewrite lookup_app_r by lia. rewrite Nat.sub_diag. reflexivity.
Qed.

(** C5. A change of the selected column puts a new filter in the state
    whose path is the selected column, whose operator is that column's
    declared default operator, whose value is the empty string and whose
    type is the column's data type; every other property is the one of the
    filter before, which is not modified. *)
Theorem column_change_resets (s : State) (curr : Filter) (selected : FilterOption) :
  store s !! filter_ref s = Some curr ->
  exists next,
    store (handleColumnChange (Some selected) s)
      !! filter_ref (handleColumnChange (Some selected) s) = Some next
    /\ path next = Some (fo_value selected)
    /\ operator next = defaultOperator selected
    /\ value next = VStr ""
    /\ type next = fo_type selected
    /\ other next = other curr
    /\ store (handleColumnChange (Some selected) s) !! filter_ref s = Some curr.
Proof.
  intros Hf. unfold handleColumnChange.
  destruct (setFilter_current s curr (columnChanged (Some selected)) Hf)
    as (Hstore & Href & Hcur & _).
  exists (columnChanged (Some selected) curr). split; [exact Hcur|].
  repeat split. rewrite Hstore. apply lookup_app_l_Some. exact Hf.
Qed.

(** ** Removal *)

(** C10. [handleRemove] reports the filter value that the row was given (the
    prop [value]) to [onRemove], whatever the state of the row; the remove
    button is disabled if and only if the row is the last one and the path
    of that filter value is empty, and a disabled button reports nothing. *)
Theorem remove_reports_value (props : Props) (s : State) :
  calls (handleRemove props s) = calls s ++ [OnRemove (prop_value props)]
  /\ (removeDisabled props = true <->
      prop_last props = true /\ ~ non_empty (path (prop_value props)))
  /\ (removeDisabled props = true -> step props s RemoveClick = Some s)
  /\ (removeDisabled props = false ->
      step props s RemoveClick = Some (handleRemove props s)).
Proof.
  split; [reflexivity|]. split; [|split].
  - unfold removeDisabled. rewrite andb_true_iff, negb_true_iff,
      truthy_nullable_false. reflexivity.
  - intros H. simpl. rewrite H. reflexivity.
  - intros H. simpl. rewrite H. reflexivity.
Qed.

(** ** The component as a transition system *)

Lemma eligible_complete f : eligible f -> complete f.
Proof. unfold eligible, complete. tauto. Qed.

Lemma validationEffect_consistent s :
  consistent s -> consistent (validationEffect s).
Proof.
  intros (Href & Htimer & Hcalls).
  destruct (lookup_lt_is_Some_2 _ _ Href) as [f Hf].
  destruct (hasError (validate f)) eqn:E.
  - apply hasError_true in E. rewrite (validationEffect_not_eligible s f Hf E).
    split; [|split]; assumption.
  - apply hasError_false in E. rewrite (validationEffect_eligible s f Hf E).
    split; [|split]; try assumption.
    intros remaining values [= <- <-]. exists f. split; [exact Hf|].
    apply eligible_complete, E.
Qed.

Lemma mount_consistent props : consistent (mount props).
Proof.
  apply validationEffect_consistent. split; [|split]; simpl.
  - lia.
  - discriminate.
  - intros f Hin. inversion Hin.
Qed.

Lemma setFilter_consistent updater s :
  consistent s -> consistent (setFilter updater s).
Proof.
  intros (Href & Htimer & Hcalls). unfold setFilter.
  destruct (store s !! filter_ref s) as [curr|] eqn:Hf; [|split; [|split]; assumption].
  apply validationEffect_consistent. split; [|split]; simpl.
  - rewrite length_app. simpl. lia.
  - intros remaining values Ht. destruct (Htimer _ _ Ht) as (f & Hl & Hc).
    exists f. split; [apply lookup_app_l_Some; exact Hl|exact Hc].
  - exact Hcalls.
Qed.

Lemma complete_set_value v f : complete f -> complete (set_value v f).
Proof. unfold complete. simpl. tauto. Qed.

(** A timer that fires never throws, and keeps the invariant. *)
Lemma elapse_consistent ms s :
  consistent s -> exists s', elapse ms s = Some s' /\ consistent s'.
Proof.
  intros (Href & Htimer & Hcalls). unfold elapse.
  destruct (timeout s) as [[remaining values]|] eqn:Ht.
  - destruct (Htimer _ _ eq_refl) as (f & Hf & Hc).
    destruct (ms <? remaining)%nat.
    + eexists. split; [reflexivity|]. split; [|split]; simpl; try assumption.
      intros r v [= <- <-]. eauto.
    + destruct Hc as [Hp Ho]. pose proof Ho as (op & Hop & Hne).
      set (s0 := {| store := store s; filter_ref := filter_ref s;
                    errors := errors s; timeout := None;
                    debounced := debounced s; calls := calls s |}).
      assert (Hf0 : store s0 !! values = Some f) by exact Hf.
      assert (Hsub : exists f',
                 (f' = f \/ f' = set_value VNull f)
                 /\ handleSubmit values s0
                    = Some {| store := <[values := f']> (store s0);
                              filter_ref := filter_ref s0;
                              errors := errors s0; timeout := timeout s0;
                              debounced := debounced s0;
                              calls := calls s0 ++ [OnSubmit f'] |}).
      { destruct (ToBoolean (value f)) eqn:Hv.
        - destruct (includes op "exists") eqn:Hin.
          + exists (set_value VNull f). split; [auto|].
            apply handleSubmit_overwrites; [exact Hf0|].
            right. exists op. auto.
          + exists f. split; [auto|].
            apply (handleSubmit_keeps _ _ _ op); assumption.
        - exists (set_value VNull f). split; [auto|].
          apply handleSubmit_overwrites; [exact Hf0|]. auto. }
      destruct Hsub as (f' & Hf' & ->).
      assert (Hc' : complete f').
      { destruct Hf' as [->| ->]; [|apply complete_set_value]; split; assumption. }
      eexists. split; [reflexivity|]. split; [|split]; simpl.
      * rewrite length_insert. exact Href.
      * discriminate.
      * intros g Hin. apply elem_of_app in Hin as [Hin|Hin]; [auto|].
        apply list_elem_of_singleton in Hin as [= ->]. exact Hc'.
  - eexists. split; [reflexivity|]. split; [|split]; try assumption.
    rewrite Ht. exact Htimer.
Qed.

Lemma step_consistent props s e :
  consistent s -> exists s', step props s e = Some s' /\ consistent s'.
Proof.
  intros Hs. destruct e as [selected|selected|newValue| |ms]; simpl.
  - eexists. split; [reflexivity|]. apply setFilter_consistent, Hs.
  - eexists. split; [reflexivity|]. apply setFilter_consistent, Hs.
  - destruct (store s !! filter_ref s) as [f|]; [|eauto].
    destruct (valueFieldShown f); [|eauto].
    eexists. split; [reflexivity|]. apply setFilter_consistent, Hs.
  - destruct (removeDisabled props); [eauto|].
    eexists. split; [reflexivity|].
    destruct Hs as (Href & Htimer & Hcalls). split; [|split]; simpl; try assumption.
    intros f Hin. apply elem_of_app in Hin as [Hin|Hin]; [auto|].
    apply list_elem_of_singleton in Hin. discriminate.
  - apply elapse_consistent, Hs.
Qed.

Lemma run_consistent props events :
  forall s, consistent s ->
  exists s', run props s events = Some s' /\ consistent s'.
Proof.
  induction events as [|e rest IH]; intros s Hs; simpl.
  - eauto.
  - destruct (step_consistent props s e Hs) as (s1 & -> & Hs1). simpl.
    apply IH, Hs1.
Qed.

(** X16. Whatever the user does and however time passes, no handler of a
    mounted row throws, and every filter that reaches [onSubmit] has a
    non-empty path and a non-empty operator. *)
Theorem submitted_filters_complete props events :
  exists s,
    run props (mount props) events = Some s
    /\ forall f, OnSubmit f ∈ calls s -> complete f.
Proof.
  destruct (run_consistent props events _ (mount_consistent props))
    as (s & Hrun & _ & _ & Hcalls).
  eauto.
Qed.

(** ** Selecting the operator ["exists"] *)

Lemma handleOperatorChange_exists s f selected :
  store s !! filter_ref s = Some f ->
  non_empty (path f) ->
  oo_value selected = "exists" ->
  handleOperatorChange (Some selected) s =
  {| store := store s ++ [operatorChanged (Some selected) f];
     filter_ref := length (store s);
     errors := validate (operatorChanged (Some selected) f);
     timeout := Some (WAIT, length (store s));
     debounced := debounced s ++ [length (store s)];
     calls := calls s |}.
Proof.
  intros Hf Hp Hsel. unfold handleOperatorChange, setFilter. rewrite Hf.
  erewrite validationEffect_eligible.
  - reflexivity.
  - simpl. rewrite lookup_app_r by lia. rewrite Nat.sub_diag. reflexivity.
  - unfold eligible. simpl. rewrite Hsel. split; [exact Hp|]. split.
    + exists "exists". split; [reflexivity|discriminate].
    + right; right. exists "exists". split; reflexivity.
Qed.

(** C3, as amended. Selecting ["exists"] on a row whose path is non-empty
    schedules the submission at once, whatever the value field holds, and
    calls nothing yet; while less than the wait has passed nothing is
    submitted; when the wait has passed with no other event, [onSubmit]
    receives the filter with the row's path and type, the operator
    ["exists"] and the value [null]. *)
Theorem exists_selection_submits_after_wait
    (props : Props) (s : State) (f : Filter) (selected : OperatorOption) :
  store s !! filter_ref s = Some f ->
  non_empty (path f) ->
  oo_value selected = "exists" ->
  exists s1,
    step props s (OperatorChange (Some selected)) = Some s1
    /\ calls s1 = calls s
    /\ debounced s1 = debounced s ++ [filter_ref s1]
    /\ timeout s1 = Some (WAIT, filter_ref s1)
    /\ (forall ms, ms < WAIT ->
        exists s2, step props s1 (Elapse ms) = Some s2 /\ calls s2 = calls s)
    /\ (exists s2,
          step props s1 (Elapse WAIT) = Some s2
          /\ calls s2 = calls s ++ [OnSubmit (exists_filter f)]).
Proof.
  intros Hf Hp Hsel. eexists. split; [reflexivity|].
  rewrite (handleOperatorChange_exists s f selected Hf Hp Hsel).
  cbn [calls debounced timeout filter_ref].
  split; [reflexivity|]. split; [reflexivity|]. split; [reflexivity|]. split.
  - intros ms Hms. cbn [step elapse timeout].
    apply Nat.ltb_lt in Hms. rewrite Hms. eexists. split; reflexivity.
  - cbn [step elapse timeout]. rewrite Nat.ltb_irrefl.
    eexists. split.
    + apply (handleSubmit_overwrites _ _ (operatorChanged (Some selected) f)).
      * cbn [store]. rewrite lookup_app_r by lia. rewrite Nat.sub_diag. reflexivity.
      * right. exists "exists". simpl. rewrite Hsel. split; reflexivity.
    + cbn [calls]. unfold exists_filter, set_value, operatorChanged. simpl.
      rewrite Hsel. reflexivity.
Qed.

(** ** Hidden columns *)

Lemma Object_values_lookup {A} (m : gmap string A) (v : A) :
  v ∈ Object_values m <-> exists k, m !! k = Some v.
Proof.
  unfold Object_values. rewrite list_elem_of_fmap. split.
  - intros ([k v'] & -> & Hin). exists k. apply elem_of_map_to_list. exact Hin.
  - intros (k & Hk). exists (k, v). split; [reflexivity|].
    apply elem_of_map_to_list. exact Hk.
Qed.

Lemma Object_values_nil {A} (m : gmap string A) :
  length (Object_values m) = 0 <-> m = ∅.
Proof.
  unfold Object_values. rewrite length_fmap, length_zero_iff_nil.
  apply map_to_list_empty_iff.
Qed.

Lemma allColumnsVisible_true (hidden : gmap string bool) :
  allColumnsVisible hidden = true <->
  hidden = ∅ \/ forall k v, hidden !! k = Some v -> v = false.
Proof.
  unfold allColumnsVisible. rewrite orb_true_iff, Nat.eqb_eq, Object_values_nil.
  rewrite forallb_forall. split; (intros [H|H]; [left; exact H|right]).
  - intros k v Hk. apply negb_true_iff, H, list_elem_of_In, Object_values_lookup.
    eauto.
  - intros v Hin. apply list_elem_of_In, Object_values_lookup in Hin as [k Hk].
    apply negb_true_iff. eauto.
Qed.

(** C6. The "all columns visible" flag is true if and only if the
    hidden-columns map is empty or all its values are false, and the "show
    all" button, when the table renders it, is disabled exactly when the
    flag is true. *)
Theorem show_all_disabled_iff_all_visible (st : TableState) (button : Button) :
  showAllButton st = Some button ->
  (allColumnsVisible (hiddenColumns st) = true <->
   hiddenColumns st = ∅
   \/ forall k v, hiddenColumns st !! k = Some v -> v = false)
  /\ (disabled button = true <-> allColumnsVisible (hiddenColumns st) = true).
Proof.
  intros Hb. split; [apply allColumnsVisible_true|].
  unfold showAllButton in Hb. destruct (enableHiddenColumns st); [|discriminate].
  injection Hb as <-. reflexivity.
Qed.

Lemma showAll_values (hidden : gmap string bool) k v :
  showAll hidden !! k = Some v -> v = false.
Proof.
  unfold showAll. generalize (Object_keys hidden) as keys.
  assert (H : forall keys (acc : gmap string bool),
             (forall v, acc !! k = Some v -> v = false) ->
             foldl (fun prev key => <[key := false]> prev) acc keys !! k = Some v ->
             v = false).
  { induction keys as [|key keys IH]; intros acc Hacc; simpl.
    - apply Hacc.
    - apply IH. intros v'. destruct (decide (key = k)) as [->|Hne].
      + rewrite lookup_insert_eq. congruence.
      + rewrite lookup_insert_ne by exact Hne. apply Hacc. }
  intros keys. apply H. intros v'. rewrite lookup_empty. discriminate.
Qed.

(** After "show all" every column is visible, so the button is disabled. *)
Lemma showAll_allColumnsVisible (hidden : gmap string bool) :
  allColumnsVisible (showAll hidden) = true.
Proof. apply allColumnsVisible_true. right. apply showAll_values. Qed.

(** ** Pagination *)

Example parseInt_25 : parseInt "25" = number_of_Z 25 false.
Proof. reflexivity. Qed.

Example parseInt_100 : parseInt "100" = number_of_Z 100 false.
Proof. reflexivity. Qed.

Example parseInt_prefix : parseInt " 12px" = number_of_Z 12 false.
Proof. reflexivity. Qed.

Example parseInt_no_digit : parseInt "all" = NaN.
Proof. reflexivity. Qed.

(** *** [parseInt] on decimal numerals *)

Lemma digit_value_pretty (d : N) :
  (d < 10)%N -> digit_value (pretty_N_char d) = Some (Z.of_N d).
Proof.
  intros Hd.
  assert (H : (d = 0 \/ d = 1 \/ d = 2 \/ d = 3 \/ d = 4 \/ d = 5 \/ d = 6
               \/ d = 7 \/ d = 8 \/ d = 9)%N) by lia.
  destruct H as [->|[->|[->|[->|[->|[->|[->|[->|[->| ->]]]]]]]]]; reflexivity.
Qed.

Lemma append_assoc (a b c : string) : (a +:+ b) +:+ c = a +:+ (b +:+ c).
Proof.
  induction a as [|ch a IH]; [reflexivity|].
  change (String ch ((a +:+ b) +:+ c) = String ch (a +:+ (b +:+ c))).
  f_equal. exact IH.
Qed.

Lemma append_empty_r (a : string) : a +:+ "" = a.
Proof.
  induction a as [|ch a IH]; [reflexivity|].
  change (String ch (a +:+ "") = String ch a). f_equal. exact IH.
Qed.

Lemma pretty_N_go_app (x : N) :
  forall s, pretty_N_go x s = pretty_N_go x "" +:+ s.
Proof.
  induction (N.lt_wf_0 x) as [x _ IH]. intros s.
  destruct (decide (x = 0)%N) as [->|Hx]; [reflexivity|].
  rewrite (pretty_N_go_step x s), (pretty_N_go_step x "") by lia.
  assert (Hlt : (x `div` 10 < x)%N) by (apply N.div_lt; lia).
  rewrite (IH _ Hlt (String _ s)), (IH _ Hlt (String _ "")).
  rewrite append_assoc. reflexivity.
Qed.

Lemma pretty_N_go_snoc (x : N) :
  (0 < x)%N ->
  pretty_N_go x "" =
  pretty_N_go (x `div` 10) "" +:+ String (pretty_N_char (x `mod` 10)) "".
Proof. intros Hx. rewrite pretty_N_go_step by exact Hx. apply pretty_N_go_app. Qed.

Lemma read_digits_pretty (x : N) :
  (0 < x)%N ->
  forall s, read_digits None (pretty_N_go x "" +:+ s) = read_digits (Some (Z.of_N x)) s.
Proof.
  induction (N.lt_wf_0 x) as [x _ IH]. intros Hx s.
  rewrite (pretty_N_go_snoc x Hx), append_assoc.
  change (String (pretty_N_char (x `mod` 10)) "" +:+ s)
    with (String (pretty_N_char (x `mod` 10)) s).
  assert (Hd : (x `mod` 10 < 10)%N) by (apply N.mod_lt; lia).
  pose proof (N.div_mod x 10 ltac:(lia)) as Hx10.
  destruct (decide (x `div` 10 = 0)%N) as [H0|H0].
  - rewrite H0. change (pretty_N_go 0 "" +:+ ?t) with t.
    cbn [read_digits]. rewrite (digit_value_pretty _ Hd). simpl default.
    f_equal. f_equal. lia.
  - rewrite IH by (try apply N.div_lt; lia).
    cbn [read_digits]. rewrite (digit_value_pretty _ Hd). simpl default.
    f_equal. f_equal. lia.
Qed.

Lemma pretty_N_go_head (x : N) :
  (0 < x)%N ->
  exists d rest, (d < 10)%N /\ pretty_N_go x "" = String (pretty_N_char d) rest.
Proof.
  induction (N.lt_wf_0 x) as [x _ IH]. intros Hx.
  rewrite (pretty_N_go_snoc x Hx).
  destruct (decide (x `div` 10 = 0)%N) as [H0|H0].
  - rewrite H0. exists (x `mod` 10)%N, "". split; [apply N.mod_lt; lia|reflexivity].
  - assert (Hlt : (x `div` 10 < x)%N) by (apply N.div_lt; lia).
    assert (Hpos : (0 < x `div` 10)%N) by (apply N.neq_0_lt_0; exact H0).
    destruct (IH _ Hlt Hpos) as (d & rest & Hd & ->).
    exists d, (rest +:+ String (pretty_N_char (x `mod` 10)) "").
    split; [exact Hd|reflexivity].
Qed.

Lemma parseInt_digit_head (d : N) (rest : string) :
  (d < 10)%N ->
  parseInt (String (pretty_N_char d) rest) =
  match read_digits None (String (pretty_N_char d) rest) with
  | None => NaN
  | Some mathInt => number_of_Z mathInt false
  end.
Proof.
  intros Hd.
  assert (H : (d = 0 \/ d = 1 \/ d = 2 \/ d = 3 \/ d = 4 \/ d = 5 \/ d = 6
               \/ d = 7 \/ d = 8 \/ d = 9)%N) by lia.
  destruct H as [->|[->|[->|[->|[->|[->|[->|[->|[->| ->]]]]]]]]]; reflexivity.
Qed.

(** The decimal numeral of a natural number parses to that number. *)
Lemma parseInt_pretty (n : N) : parseInt (pretty n) = number_of_Z (Z.of_N n) false.
Proof.
  unfold pretty, pretty_N. destruct (decide (n = 0)%N) as [->|Hn]; [reflexivity|].
  assert (Hpos : (0 < n)%N) by lia.
  destruct (pretty_N_go_head n Hpos) as (d & rest & Hd & Hhead).
  rewrite Hhead, (parseInt_digit_head d rest Hd), <- Hhead.
  pose proof (read_digits_pretty n Hpos "") as Hr.
  rewrite append_empty_r in Hr. rewrite Hr. reflexivity.
Qed.

(** C7. A rows-per-page change calls [update] once, with the rows per page
    that [parseInt] reads from the input and with page [0]: when the input
    is the decimal numeral of [n], with rows per page [n]. A page change
    calls [update.page] once, with the new page number as it is. *)
Theorem pagination_changes_forwarded
    (log : list UpdateCall) (e : ChangeEvent) (newPage : number) :
  onRowsPerPageChange e log =
    log ++ [Update {| rowsPerPage := parseInt (target_value e);
                      page := S754_zero false |}]
  /\ (forall n : N,
        target_value e = pretty n ->
        onRowsPerPageChange e log =
          log ++ [Update {| rowsPerPage := number_of_Z (Z.of_N n) false;
                            page := S754_zero false |}])
  /\ onPageChange newPage log = log ++ [UpdatePage newPage].
Proof.
  split; [reflexivity|]. split; [|reflexivity].
  intros n Hn. unfold onRowsPerPageChange. rewrite Hn, parseInt_pretty.
  reflexivity.
Qed.

(** ** Footer rows *)

Lemma defined_is_Some {A} (o : option A) : defined o = true <-> is_Some o.
Proof.
  destruct o; simpl; split; intros H; try reflexivity; try discriminate; eauto.
  destruct H as [? H]. discriminate.
Qed.

Lemma hasFooter_true st :
  hasFooter st = true <->
  exists struct, struct ∈ flattened st /\ is_Some (struct_footer struct).
Proof.
  unfold hasFooter. rewrite existsb_exists.
  split; intros (struct & Hin & H); exists struct;
    (split; [apply list_elem_of_In; exact Hin|apply defined_is_Some; exact H]).
Qed.

Lemma hasColGroupFooter_true st :
  hasColGroupFooter st = true <->
  exists struct,
    struct ∈ structure st /\ is_Some (colGroup struct)
    /\ is_Some (col_footer struct).
Proof.
  unfold hasColGroupFooter. rewrite existsb_exists.
  split; intros (struct & Hin & H); exists struct.
  - apply andb_true_iff in H as [H1 H2].
    split; [apply list_elem_of_In; exact Hin|].
    split; apply defined_is_Some; assumption.
  - destruct H as [H1 H2].
    split; [apply list_elem_of_In; exact Hin|].
    apply andb_true_iff. split; apply defined_is_Some; assumption.
Qed.

(** C9. The plain footer row is rendered if and only if some flattened
    column declares a footer, the group footer row if and only if some
    entry of the structure declares a column group and a footer; when both
    are rendered, the plain row has one cell per flattened column, whose
    row span is 2 exactly when the column does not belong to a column group
    that has a group footer, and 1 otherwise. *)
Theorem footer_rows (st : TableState) :
  (is_Some (renderFooter st ≫= plainRow) <->
   exists struct, struct ∈ flattened st /\ is_Some (struct_footer struct))
  /\ (is_Some (renderFooter st ≫= groupRow) <->
      exists struct,
        struct ∈ structure st /\ is_Some (colGroup struct)
        /\ is_Some (col_footer struct))
  /\ (forall cells entries,
        renderFooter st ≫= plainRow = Some cells ->
        renderFooter st ≫= groupRow = Some entries ->
        length cells = length (flattened st)
        /\ forall i struct cell,
             flattened st !! i = Some struct ->
             cells !! i = Some cell ->
             (rowSpan cell = Some 2 <-> ~ in_group_with_footer struct)
             /\ (rowSpan cell = Some 1 <-> in_group_with_footer struct)).
Proof.
  rewrite <- hasFooter_true, <- hasColGroupFooter_true.
  unfold renderFooter, in_group_with_footer.
  destruct (hasFooter st) eqn:Hf, (hasColGroupFooter st) eqn:Hg; simpl;
    (split; [|split]);
    try (split; [intros [? ?]; congruence|discriminate]);
    try (split; [reflexivity|eauto]);
    try (intros cells entries; discriminate).
  intros cells entries [= <-] _. split; [apply length_map|].
  intros i struct cell Hi Hc.
  change (map (plainFooterCell st) (flattened st))
    with (plainFooterCell st <$> flattened st) in Hc.
  rewrite list_lookup_fmap, Hi in Hc. injection Hc as <-.
  unfold plainFooterCell; simpl. rewrite Hg. simpl.
  destruct (isColGroup struct), (struct_hasColGroupFooter struct); simpl;
    intuition (try discriminate; try congruence).
Qed.

(** ** Operator options *)

Lemma operator_offered_listed type o :
  tag_ok type -> label_ok o ->
  operator_offered type o = true <-> listed type o.
Proof.
  unfold tag_ok, label_ok, operator_offered, listed, default_label, type_label.
  intros Htag Hlabel. destruct (typeLabelMap o) as [m|]; simpl in *.
  - rewrite orb_true_iff. split.
    + intros [H|H].
      * right; left. apply truthy_nullable_true in H as (l & -> & _). eauto.
      * right; right. destruct type as [t|]; [|discriminate]. simpl.
        apply andb_true_iff in H as [_ H]. apply bool_decide_eq_true in H. exact H.
    + intros [H|[[l H]|H]]; [discriminate| |].
      * left. apply truthy_nullable_true. exists l. split; [exact H|].
        apply Hlabel. exact H.
      * right. destruct type as [t|]; simpl in H; [|destruct H; discriminate].
        apply andb_true_iff. split.
        -- apply truthy_string_true. congruence.
        -- apply bool_decide_eq_true. exact H.
  - split; auto.
Qed.

Lemma operator_label_listed type o :
  tag_ok type -> listed type o ->
  operator_label type o = Some (display_label type o).
Proof.
  unfold tag_ok, operator_label, listed, display_label, default_label, type_label.
  intros Htag Hl. destruct (typeLabelMap o) as [m|]; simpl in *; [|reflexivity].
  destruct type as [t|]; simpl in *.
  - assert (Ht : truthy_string t = true) by (apply truthy_string_true; congruence).
    rewrite Ht. destruct (m !! t) as [l|]; [reflexivity|].
    destruct Hl as [H|[[l H]|[l H]]]; try discriminate.
    rewrite H. reflexivity.
  - destruct Hl as [H|[[l H]|[l H]]]; try discriminate.
    rewrite H. reflexivity.
Qed.

(** C8. For a data type (or none) the operator options are, in the order of
    the catalog, the operators that have no type-label map, a default label
    or a label for the type, each with its id as value and, as label, the
    label for the type if there is one, else the default label, else the
    id. *)
Theorem operator_options_listed (OPERATORS : list Operator) (type : option string) :
  tag_ok type ->
  Forall label_ok OPERATORS ->
  getOperatorOptions OPERATORS type = listed_options OPERATORS type.
Proof.
  intros Htag Hlabels. unfold getOperatorOptions, listed_options.
  induction Hlabels as [|o rest Ho Hrest IH]; [reflexivity|].
  simpl List.filter. rewrite filter_cons.
  destruct (operator_offered type o) eqn:E.
  - apply operator_offered_listed in E; [|exact Htag|exact Ho].
    rewrite decide_True by exact E. simpl. f_equal; [|exact IH].
    f_equal. apply operator_label_listed; assumption.
  - rewrite decide_False; [exact IH|].
    intros Hl. apply (operator_offered_listed type o Htag Ho) in Hl. congruence.
Qed.

Example example_options_date :
  getOperatorOptions example_catalog (Some "date") =
  [ {| oo_label := Some "exists"; oo_value := "exists" |};
    {| oo_label := Some "is"; oo_value := "=" |};
    {| oo_label := Some "is after"; oo_value := ">" |} ].
Proof. vm_compute. reflexivity. Qed.

(** An operator whose default label is the empty string is not offered:
    the assumption on the catalog's labels is needed. *)
Example empty_default_label_not_offered :
  getOperatorOptions
    [ {| op_value := "="; typeLabelMap := Some {[ "default" := "" ]} |} ] None = [].
Proof. vm_compute. reflexivity. Qed.

(** The submission writes [null] into the object that the state holds: a
    row mounted with the value [0] submits [null] when the wait has
    passed, and the next edit copies the [null], so that the row is then
    invalid and submits nothing more. *)
Example zero_lost_after_submission :
  exists s,
    run zero_row (mount zero_row)
        [Elapse 500; OperatorChange (Some greater_option); Elapse 500] = Some s
    /\ calls s = [OnSubmit (set_value VNull age_zero)]
    /\ errors s = {| err_path := false; err_operator := false; err_value := true |}.
Proof. eexists. split; [vm_compute; reflexivity|]. split; reflexivity. Qed.

(** A later edit that is not valid does not cancel the pending timer: the
    last valid filter is still submitted. *)
Example pending_submission_survives_invalid_edit :
  exists s,
    run name_row (mount name_row)
        [Elapse 200; OperatorChange None; Elapse 300] = Some s
    /\ calls s = [OnSubmit (set_value VNull name_missing)].
Proof. eexists. split; [vm_compute; reflexivity|]. reflexivity. Qed.

(** * The theorems at concrete inputs *)

Lemma validation_submits_iff_eligible_witness :
  store (mount age_row) !! filter_ref (mount age_row) = Some age_filter
  /\ (debounced (validationEffect (mount age_row))
      = debounced (mount age_row) ++ [filter_ref (mount age_row)]
      <-> eligible age_filter).
Proof.
  split; [vm_compute; reflexivity|].
  apply (validation_submits_iff_eligible (mount age_row) age_filter).
  vm_compute. reflexivity.
Defined.

Lemma existence_submits_null_witness :
  store (mount name_row) !! 0 = Some name_missing
  /\ existence_operator (operator name_missing)
  /\ exists s',
       handleSubmit 0 (mount name_row) = Some s'
       /\ calls s' = calls (mount name_row) ++ [OnSubmit (set_value VNull name_missing)]
       /\ value (set_value VNull name_missing) = VNull
       /\ store s' !! 0 = Some (set_value VNull name_missing).
Proof.
  assert (H : existence_operator (operator name_missing)).
  { exists "!exists". split; reflexivity. }
  split; [vm_compute; reflexivity|]. split; [exact H|].
  apply (existence_submits_null (mount name_row) 0 name_missing);
    [vm_compute; reflexivity|exact H].
Defined.

Lemma falsy_value_submits_null_witness :
  ~ existence_operator (operator age_zero)
  /\ ToBoolean (value age_zero) = false
  /\ value age_zero = VNum (S754_zero false)
  /\ exists s' submitted,
       handleSubmit 0 (mount zero_row) = Some s'
       /\ calls s' = [OnSubmit submitted]
       /\ value submitted = VNull
       /\ path submitted = Some "age"
       /\ operator submitted = Some "=".
Proof.
  assert (H : ~ existence_operator (operator age_zero)).
  { intros (op & Hop & Hin). injection Hop as <-. discriminate Hin. }
  split; [exact H|]. split; [reflexivity|]. split; [reflexivity|].
  destruct (falsy_value_submits_null (mount zero_row) 0 age_zero)
    as [(s' & submitted & Hs & Hc & _ & Hv & Hp & Ho & _) _].
  - vm_compute. reflexivity.
  - exact H.
  - reflexivity.
  - exists s', submitted. split; [exact Hs|]. split; [exact Hc|].
    split; [exact Hv|]. split; [rewrite Hp|rewrite Ho]; reflexivity.
Defined.

Lemma exists_selection_submits_after_wait_witness :
  non_empty (path age_filter)
  /\ exists s1,
       step age_row (mount age_row) (OperatorChange (Some exists_option)) = Some s1
       /\ calls s1 = calls (mount age_row)
       /\ debounced s1 = debounced (mount age_row) ++ [filter_ref s1]
       /\ timeout s1 = Some (WAIT, filter_ref s1)
       /\ (forall ms, ms < WAIT ->
           exists s2,
             step age_row s1 (Elapse ms) = Some s2
             /\ calls s2 = calls (mount age_row))
       /\ (exists s2,
             step age_row s1 (Elapse WAIT) = Some s2
             /\ calls s2 = calls (mount age_row) ++ [OnSubmit (exists_filter age_filter)]).
Proof.
  assert (H : non_empty (path age_filter)).
  { exists "age". split; [reflexivity|discriminate]. }
  split; [exact H|].
  apply (exists_selection_submits_after_wait age_row (mount age_row) age_filter
           exists_option); [vm_compute; reflexivity|exact H|reflexivity].
Defined.

(** C3, as stated, fails: in the step that selects ["exists"] on the row
    of the column ["age"] nothing goes to [onSubmit]. *)
Lemma exists_selection_not_submitted_at_once :
  store (mount age_row) !! filter_ref (mount age_row) = Some age_filter
  /\ non_empty (path age_filter)
  /\ oo_value exists_option = "exists"
  /\ step age_row (mount age_row) (OperatorChange (Some exists_option))
     = Some (handleOperatorChange (Some exists_option) (mount age_row))
  /\ calls (handleOperatorChange (Some exists_option) (mount age_row)) = []
  /\ ~ submitted_at_once age_row (mount age_row) age_filter exists_option.
Proof.
  split; [vm_compute; reflexivity|].
  split; [exists "age"; split; [reflexivity|discriminate]|].
  split; [reflexivity|]. split; [reflexivity|].
  split; [vm_compute; reflexivity|].
  intros (s' & Hstep & Hcalls). simpl in Hstep. injection Hstep as <-.
  vm_compute in Hcalls. discriminate Hcalls.
Qed.

Lemma column_change_resets_witness :
  store (mount age_row) !! filter_ref (mount age_row) = Some age_filter
  /\ exists next,
       store (handleColumnChange (Some name_column) (mount age_row))
         !! filter_ref (handleColumnChange (Some name_column) (mount age_row))
       = Some next
       /\ path next = Some "name"
       /\ operator next = Some "~"
       /\ value next = VStr ""
       /\ type next = Some "string"
       /\ other next = other age_filter
       /\ store (handleColumnChange (Some name_column) (mount age_row))
            !! filter_ref (mount age_row) = Some age_filter.
Proof.
  split; [vm_compute; reflexivity|].
  apply (column_change_resets (mount age_row) age_filter name_column).
  vm_compute. reflexivity.
Defined.

Lemma show_all_disabled_iff_all_visible_witness :
  showAllButton example_table
  = Some {| text := "Show all"; disabled := false |}
  /\ (disabled {| text := "Show all"; disabled := false |} = true
      <-> allColumnsVisible (hiddenColumns example_table) = true).
Proof.
  split; [vm_compute; reflexivity|].
  apply (show_all_disabled_iff_all_visible example_table
           {| text := "Show all"; disabled := false |}).
  vm_compute. reflexivity.
Defined.

Lemma operator_options_listed_witness :
  tag_ok (Some "date")
  /\ Forall label_ok example_catalog
  /\ getOperatorOptions example_catalog (Some "date")
     = listed_options example_catalog (Some "date").
Proof.
  assert (Ht : tag_ok (Some "date")) by discriminate.
  assert (Hl : Forall label_ok example_catalog).
  { repeat constructor; intros l H; vm_compute in H;
      try discriminate H; injection H as <-; discriminate. }
  split; [exact Ht|]. split; [exact Hl|].
  apply (operator_options_listed example_catalog (Some "date") Ht Hl).
Defined.

(** * Further properties of the filter row *)

(** ** Scheduling and delivery *)

Lemma initialFilter_copy v : initialFilter v = v.
Proof.
  destruct v as [p o v t m]. unfold initialFilter. simpl.
  f_equal. apply (right_id_L ∅ (∪)).
Qed.

Lemma truthy_present v : ToBoolean v = true -> value_present v.
Proof.
  unfold value_present. destruct v as [| |b|n|[|c s]|l]; simpl;
    try discriminate; intros _; repeat split; discriminate.
Qed.

Lemma existence_not_empty o : existence_operator o -> non_empty o.
Proof.
  intros (op & -> & Hin). exists op. split; [reflexivity|].
  intros ->. discriminate Hin.
Qed.

Lemma includes_opt_true o :
  includes_opt o "exists" = true <-> existence_operator o.
Proof.
  unfold existence_operator. destruct o as [op|]; simpl.
  - split; [eauto|]. intros (op' & [= <-] & H). exact H.
  - split; [discriminate|]. intros (op' & H & _). discriminate.
Qed.

Lemma includes_opt_false o :
  includes_opt o "exists" = false <-> ~ existence_operator o.
Proof.
  rewrite <- includes_opt_true. destruct (includes_opt o "exists"); split; congruence.
Qed.

Lemma setFilter_eligible s f updater :
  store s !! filter_ref s = Some f ->
  eligible (updater f) ->
  setFilter updater s =
  {| store := store s ++ [updater f];
     filter_ref := length (store s);
     errors := validate (updater f);
     timeout := Some (WAIT, length (store s));
     debounced := debounced s ++ [length (store s)];
     calls := calls s |}.
Proof.
  intros Hf He. unfold setFilter. rewrite Hf.
  erewrite validationEffect_eligible; [reflexivity| |exact He].
  simpl. rewrite lookup_app_r by lia. rewrite Nat.sub_diag. reflexivity.
Qed.

Lemma setFilter_not_eligible s f updater :
  store s !! filter_ref s = Some f ->
  ~ eligible (updater f) ->
  setFilter updater s =
  {| store := store s ++ [updater f];
     filter_ref := length (store s);
     errors := validate (updater f);
     timeout := timeout s;
     debounced := debounced s;
     calls := calls s |}.
Proof.
  intros Hf He. unfold setFilter. rewrite Hf.
  erewrite validationEffect_not_eligible; [reflexivity| |exact He].
  simpl. rewrite lookup_app_r by lia. rewrite Nat.sub_diag. reflexivity.
Qed.

(** [handleSubmit] on a filter that has an operator, or a falsy value. *)
Lemma handleSubmit_as_submitted s values f :
  store s !! values = Some f ->
  is_Some (operator f) \/ ToBoolean (value f) = false ->
  handleSubmit values s =
  Some {| store := <[values := as_submitted f]> (store s);
          filter_ref := filter_ref s;
          errors := errors s;
          timeout := timeout s;
          debounced := debounced s;
          calls := calls s ++ [OnSubmit (as_submitted f)] |}.
Proof.
  intros Hf H. unfold handleSubmit, as_submitted. rewrite Hf. simpl.
  destruct (ToBoolean (value f)) eqn:Hv; simpl; [|reflexivity].
  destruct H as [[op Hop]|H]; [|discriminate].
  rewrite Hop. simpl. destruct (includes op "exists"); reflexivity.
Qed.

(** A pending timer: before the time left has passed nothing is called,
    and when it has passed the filter is handed to [onSubmit]. *)
Lemma elapse_before s remaining values ms :
  timeout s = Some (remaining, values) ->
  ms < remaining ->
  elapse ms s =
  Some {| store := store s;
          filter_ref := filter_ref s;
          errors := errors s;
          timeout := Some (remaining - ms, values);
          debounced := debounced s;
          calls := calls s |}.
Proof.
  intros Ht Hms. unfold elapse. rewrite Ht.
  apply Nat.ltb_lt in Hms. rewrite Hms. reflexivity.
Qed.

Lemma elapse_fires s remaining values f ms :
  timeout s = Some (remaining, values) ->
  store s !! values = Some f ->
  is_Some (operator f) \/ ToBoolean (value f) = false ->
  remaining <= ms ->
  elapse ms s =
  Some {| store := <[values := as_submitted f]> (store s);
          filter_ref := filter_ref s;
          errors := errors s;
          timeout := None;
          debounced := debounced s;
          calls := calls s ++ [OnSubmit (as_submitted f)] |}.
Proof.
  intros Ht Hf Hop Hms. unfold elapse. rewrite Ht.
  apply Nat.ltb_ge in Hms. rewrite Hms.
  rewrite (handleSubmit_as_submitted _ values f); [reflexivity|exact Hf|exact Hop].
Qed.

Lemma complete_has_operator f : complete f -> is_Some (operator f).
Proof. intros [_ (op & -> & _)]. eauto. Qed.

Lemma lookup_snoc {A} (l : list A) (x : A) : (l ++ [x]) !! length l = Some x.
Proof. rewrite lookup_app_r by lia. rewrite Nat.sub_diag. reflexivity. Qed.

Lemma step_elapse props s ms : step props s (Elapse ms) = elapse ms s.
Proof. reflexivity. Qed.

Lemma valueChanged_eligible f v :
  complete f -> ToBoolean v = true -> eligible (valueChanged v f).
Proof.
  intros [Hp Ho] Hv. unfold eligible. simpl.
  split; [exact Hp|]. split; [exact Ho|]. left. apply truthy_present, Hv.
Qed.

Lemma as_submitted_kept f :
  ToBoolean (value f) = true -> ~ existence_operator (operator f) ->
  as_submitted f = f.
Proof.
  intros Hv Hop. unfold as_submitted. apply includes_opt_false in Hop.
  rewrite Hv, Hop. reflexivity.
Qed.

Lemma valueChange_schedules props s f v :
  store s !! filter_ref s = Some f ->
  complete f ->
  ~ existence_operator (operator f) ->
  ToBoolean v = true ->
  step props s (ValueChange v) =
  Some {| store := store s ++ [valueChanged v f];
          filter_ref := length (store s);
          errors := validate (valueChanged v f);
          timeout := Some (WAIT, length (store s));
          debounced := debounced s ++ [length (store s)];
          calls := calls s |}.
Proof.
  intros Hf Hc Hop Hv. cbn [step]. rewrite Hf.
  unfold valueFieldShown. apply includes_opt_false in Hop. rewrite Hop.
  cbn [negb]. unfold handleValueChange.
  rewrite (setFilter_eligible s f _ Hf (valueChanged_eligible f v Hc Hv)).
  reflexivity.
Qed.

(** X1. On a row with a path and an operator that is no existence check,
    a truthy value that the user enters is submitted as it is: the edit
    calls nothing, nothing is called while less than the wait has passed,
    and when the wait has passed [onSubmit] receives the filter with the
    entered value and the timer is gone. *)
Theorem value_edit_submitted_after_wait
    (props : Props) (s : State) (f : Filter) (v : JsValue) :
  store s !! filter_ref s = Some f ->
  complete f ->
  ~ existence_operator (operator f) ->
  ToBoolean v = true ->
  exists s1,
    step props s (ValueChange v) = Some s1
    /\ calls s1 = calls s
    /\ (forall ms, ms < WAIT ->
        exists s2, step props s1 (Elapse ms) = Some s2 /\ calls s2 = calls s)
    /\ (exists s2,
          step props s1 (Elapse WAIT) = Some s2
          /\ calls s2 = calls s ++ [OnSubmit (valueChanged v f)]
          /\ timeout s2 = None).
Proof.
  intros Hf Hc Hop Hv. eexists. split; [apply valueChange_schedules; eassumption|].
  split; [reflexivity|]. split.
  - intros ms Hms. cbn [step]. erewrite elapse_before; [|reflexivity|exact Hms].
    eexists. split; reflexivity.
  - cbn [step]. erewrite (elapse_fires _ _ _ (valueChanged v f));
      [|reflexivity|apply lookup_snoc|left; apply complete_has_operator, Hc|reflexivity].
    rewrite (as_submitted_kept (valueChanged v f)) by assumption.
    eexists. split; [reflexivity|]. split; reflexivity.
Qed.


(** X3. An edit that leaves the row invalid does not cancel a pending
    submission: the timer is left as it was, and when its time has passed
    the filter that was scheduled before goes to [onSubmit]. *)
Theorem invalid_edit_keeps_pending_submission
    (s : State) (f g : Filter) (updater : Filter -> Filter)
    (remaining : nat) (values : ref) :
  store s !! filter_ref s = Some f ->
  timeout s = Some (remaining, values) ->
  store s !! values = Some g ->
  complete g ->
  ~ eligible (updater f) ->
  timeout (setFilter updater s) = Some (remaining, values)
  /\ debounced (setFilter updater s) = debounced s
  /\ exists s',
       elapse remaining (setFilter updater s) = Some s'
       /\ calls s' = calls s ++ [OnSubmit (as_submitted g)].
Proof.
  intros Hf Ht Hg Hc He. rewrite (setFilter_not_eligible s f updater Hf He).
  split; [exact Ht|]. split; [reflexivity|].
  erewrite (elapse_fires _ remaining values g);
    [|exact Ht|apply lookup_app_l_Some, Hg|left; apply complete_has_operator, Hc
     |reflexivity].
  eexists. split; reflexivity.
Qed.

(** X4. A click on the remove button does not cancel a pending submission:
    [onRemove] is called, and when the time left has passed the scheduled
    filter still goes to [onSubmit]. *)
Theorem remove_keeps_pending_submission
    (props : Props) (s : State) (g : Filter) (remaining : nat) (values : ref) :
  timeout s = Some (remaining, values) ->
  store s !! values = Some g ->
  complete g ->
  removeDisabled props = false ->
  exists s',
    run props s [RemoveClick; Elapse remaining] = Some s'
    /\ calls s' = calls s ++ [OnRemove (prop_value props); OnSubmit (as_submitted g)].
Proof.
  intros Ht Hg Hc Hd. cbn [run step]. rewrite Hd. cbn [mbind option_bind].
  erewrite (elapse_fires _ remaining values g);
    [|exact Ht|exact Hg|left; apply complete_has_operator, Hc|reflexivity].
  cbn [mbind option_bind]. eexists. split; [reflexivity|].
  cbn [calls handleRemove]. rewrite <- app_assoc. reflexivity.
Qed.

(** ** Column selection and mounting *)

Lemma columnChanged_eligible selected f :
  eligible (columnChanged selected f) <->
  exists c,
    selected = Some c /\ fo_value c <> ""
    /\ existence_operator (defaultOperator c).
Proof.
  unfold eligible. simpl. split.
  - intros ((p & Hp & Hne) & _ & [Hv|[Hv|Hex]]).
    + destruct Hv as (_ & _ & Hv). congruence.
    + destruct Hv as [Hv|Hv]; discriminate Hv.
    + destruct selected as [c|]; [|discriminate]. simpl in *.
      exists c. injection Hp as <-. auto.
  - intros (c & -> & Hne & Hex). simpl.
    split; [exists (fo_value c); auto|].
    split; [apply existence_not_empty, Hex|auto].
Qed.

(** X5. A change of the column select empties the value, so by itself it
    schedules a submission only when the selected column has a non-empty
    path and its default operator is an existence check; in every other
    case nothing is scheduled and a pending timer is left as it was. *)
Theorem column_change_schedules_iff_existence_default
    (s : State) (f : Filter) (selected : option FilterOption) :
  store s !! filter_ref s = Some f ->
  (debounced (handleColumnChange selected s)
   = debounced s ++ [filter_ref (handleColumnChange selected s)]
   <-> exists c,
         selected = Some c /\ fo_value c <> ""
         /\ existence_operator (defaultOperator c))
  /\ (~ (exists c,
           selected = Some c /\ fo_value c <> ""
           /\ existence_operator (defaultOperator c)) ->
      debounced (handleColumnChange selected s) = debounced s
      /\ timeout (handleColumnChange selected s) = timeout s).
Proof.
  intros Hf. rewrite <- columnChanged_eligible. unfold handleColumnChange.
  assert (Hno : ~ eligible (columnChanged selected f) ->
                debounced (setFilter (columnChanged selected) s) = debounced s
                /\ timeout (setFilter (columnChanged selected) s) = timeout s).
  { intros He. rewrite (setFilter_not_eligible s f _ Hf He). auto. }
  split; [|exact Hno]. split.
  - intros Hd. destruct (hasError (validate (columnChanged selected f))) eqn:E.
    + apply hasError_true in E. destruct (Hno E) as [Hd' _]. rewrite Hd' in Hd.
      symmetry in Hd. destruct (list_snoc_neq _ _ Hd).
    + apply hasError_false, E.
  - intros He. rewrite (setFilter_eligible s f _ Hf He). reflexivity.
Qed.

Lemma mount_eligible props :
  eligible (prop_value props) ->
  mount props =
  {| store := [prop_value props];
     filter_ref := 0;
     errors := validate (prop_value props);
     timeout := Some (WAIT, 0);
     debounced := [0];
     calls := [] |}.
Proof.
  intros He. unfold mount. rewrite initialFilter_copy.
  erewrite validationEffect_eligible; [reflexivity|reflexivity|exact He].
Qed.

Lemma mount_not_eligible props :
  ~ eligible (prop_value props) ->
  mount props =
  {| store := [prop_value props];
     filter_ref := 0;
     errors := validate (prop_value props);
     timeout := None;
     debounced := [];
     calls := [] |}.
Proof.
  intros He. unfold mount. rewrite initialFilter_copy.
  erewrite validationEffect_not_eligible; [reflexivity|reflexivity|exact He].
Qed.

(** X6. The effect also runs after the first render: a row that is mounted
    with an eligible filter submits it when the wait has passed, with no
    action of the user; a row mounted with any other filter schedules
    nothing, and the passing of time alone calls nothing. *)
Theorem mount_submits_eligible_filter (props : Props) :
  (eligible (prop_value props) ->
   calls (mount props) = []
   /\ exists s,
        elapse WAIT (mount props) = Some s
        /\ calls s = [OnSubmit (as_submitted (prop_value props))])
  /\ (~ eligible (prop_value props) ->
      debounced (mount props) = []
      /\ forall ms, elapse ms (mount props) = Some (mount props)
                    /\ calls (mount props) = []).
Proof.
  split; intros He.
  - rewrite (mount_eligible props He). split; [reflexivity|].
    erewrite (elapse_fires _ WAIT 0 (prop_value props));
      [|reflexivity|reflexivity| |reflexivity].
    + eexists. split; reflexivity.
    + left. apply complete_has_operator, eligible_complete, He.
  - rewrite (mount_not_eligible props He). split; [reflexivity|].
    intros ms. split; reflexivity.
Qed.

(** ** Invariants over all runs *)

Lemma setFilter_calls updater s : calls (setFilter updater s) = calls s.
Proof.
  unfold setFilter. destruct (store s !! filter_ref s); [|reflexivity].
  rewrite validationEffect_calls. reflexivity.
Qed.

Lemma handleSubmit_calls values s s' :
  handleSubmit values s = Some s' ->
  timeout s' = timeout s /\ debounced s' = debounced s
  /\ exists f, calls s' = calls s ++ [OnSubmit f].
Proof.
  unfold handleSubmit. destruct (store s !! values) as [f|]; [|discriminate].
  simpl. destruct (negb (ToBoolean (value f))); simpl.
  - intros [= <-]. simpl. eauto.
  - destruct (operator f) as [op|]; [|discriminate]. simpl.
    intros [= <-]. simpl. eauto.
Qed.

Lemma elapse_calls ms s s' :
  elapse ms s = Some s' ->
  debounced s' = debounced s
  /\ ((calls s' = calls s /\ pending s' = pending s)
      \/ (pending s = 1 /\ pending s' = 0
          /\ exists f, calls s' = calls s ++ [OnSubmit f])).
Proof.
  unfold elapse, pending. destruct (timeout s) as [[remaining values]|] eqn:Ht.
  - destruct (ms <? remaining)%nat.
    + intros [= <-]. simpl. auto.
    + intros H. apply handleSubmit_calls in H as (Ht' & Hd & f & Hc).
      simpl in *. rewrite Ht'. split; [exact Hd|]. right. eauto.
  - intros [= <-]. rewrite Ht. auto.
Qed.

Lemma validationEffect_pending s :
  (debounced (validationEffect s) = debounced s
   /\ timeout (validationEffect s) = timeout s)
  \/ (length (debounced (validationEffect s)) = S (length (debounced s))
      /\ pending (validationEffect s) = 1).
Proof.
  unfold validationEffect. destruct (store s !! filter_ref s) as [f|]; [|auto].
  destruct (hasError (validate f)); [auto|]. right. simpl.
  rewrite length_app. simpl. split; [lia|reflexivity].
Qed.

Lemma submissions_app cs cs' :
  submissions (cs ++ cs') = submissions cs + submissions cs'.
Proof. unfold submissions. rewrite List.filter_app, length_app. reflexivity. Qed.

Lemma setFilter_bounded updater s :
  submissions (calls s) + pending s <= length (debounced s) ->
  submissions (calls (setFilter updater s)) + pending (setFilter updater s)
  <= length (debounced (setFilter updater s)).
Proof.
  intros H. rewrite setFilter_calls. unfold setFilter.
  destruct (store s !! filter_ref s) as [f|]; [|exact H].
  match goal with |- context [validationEffect ?s0] =>
    destruct (validationEffect_pending s0) as [[Hd Ht]|[Hd Hp]] end.
  - unfold pending in *. rewrite Hd, Ht. exact H.
  - rewrite Hd, Hp. simpl. lia.
Qed.

Lemma step_bounded props s e s' :
  step props s e = Some s' ->
  submissions (calls s) + pending s <= length (debounced s) ->
  submissions (calls s') + pending s' <= length (debounced s').
Proof.
  intros Hstep H. destruct e as [selected|selected|newValue| |ms]; simpl in Hstep.
  - injection Hstep as <-. apply setFilter_bounded, H.
  - injection Hstep as <-. apply setFilter_bounded, H.
  - destruct (store s !! filter_ref s) as [f|]; [|injection Hstep as <-; exact H].
    destruct (valueFieldShown f); injection Hstep as <-;
      [apply setFilter_bounded|]; exact H.
  - destruct (removeDisabled props); injection Hstep as <-; [exact H|].
    unfold pending in *. cbn [calls timeout debounced handleRemove].
    rewrite submissions_app.
    change (submissions [OnRemove (prop_value props)]) with 0. lia.
  - apply elapse_calls in Hstep as (Hd & [[Hc Hp]|(Hp & Hp' & f & Hc)]);
      rewrite Hd, Hc; [rewrite Hp; exact H|].
    rewrite submissions_app, Hp'. rewrite Hp in H.
    change (submissions [OnSubmit f]) with 1. lia.
Qed.

(** X7. In every run of a mounted row, [onSubmit] is called at most as often
    as the debounced submission was invoked, and a timer that is still
    pending accounts for one invocation that has not been delivered. *)
Theorem submissions_bounded_by_schedulings (props : Props) (events : list Event) :
  exists s,
    run props (mount props) events = Some s
    /\ submissions (calls s) + pending s <= length (debounced s).
Proof.
  assert (H0 : submissions (calls (mount props)) + pending (mount props)
               <= length (debounced (mount props))).
  { unfold mount.
    match goal with |- context [validationEffect ?s0] =>
      rewrite (validationEffect_calls s0);
      destruct (validationEffect_pending s0) as [[Hd Ht]|[Hd Hp]] end.
    - unfold pending. rewrite Hd, Ht. simpl. lia.
    - rewrite Hd, Hp. simpl. lia. }
  pose proof (mount_consistent props) as Hc0.
  revert H0 Hc0. generalize (mount props) as s.
  induction events as [|e rest IH]; intros s H Hc; simpl.
  - eauto.
  - destruct (step_consistent props s e Hc) as (s1 & Hstep & Hc1).
    rewrite Hstep. simpl. apply IH; [|exact Hc1].
    apply (step_bounded props s e s1 Hstep H).
Qed.

Lemma not_eligible_without_path f : ~ non_empty (path f) -> ~ eligible f.
Proof. unfold eligible. tauto. Qed.

Lemma step_without_column props s e f :
  no_column_change e ->
  store s !! filter_ref s = Some f ->
  ~ non_empty (path f) ->
  timeout s = None ->
  exists s' f',
    step props s e = Some s'
    /\ store s' !! filter_ref s' = Some f'
    /\ ~ non_empty (path f')
    /\ timeout s' = None
    /\ (calls s' = calls s \/ calls s' = calls s ++ [OnRemove (prop_value props)]).
Proof.
  intros He Hf Hp Ht.
  assert (Hsame : exists s' f',
             Some s = Some s'
             /\ store s' !! filter_ref s' = Some f'
             /\ ~ non_empty (path f')
             /\ timeout s' = None
             /\ (calls s' = calls s
                 \/ calls s' = calls s ++ [OnRemove (prop_value props)])).
  { exists s, f. split; [reflexivity|]. split; [exact Hf|]. split; [exact Hp|].
    split; [exact Ht|]. left. reflexivity. }
  assert (Hset : forall updater,
             path (updater f) = path f ->
             exists s' f',
               Some (setFilter updater s) = Some s'
               /\ store s' !! filter_ref s' = Some f'
               /\ ~ non_empty (path f')
               /\ timeout s' = None
               /\ (calls s' = calls s
                   \/ calls s' = calls s ++ [OnRemove (prop_value props)])).
  { intros updater Hpath.
    assert (Hpu : ~ non_empty (path (updater f))) by (rewrite Hpath; exact Hp).
    rewrite (setFilter_not_eligible s f updater Hf
               (not_eligible_without_path _ Hpu)).
    eexists _, (updater f). split; [reflexivity|]. split; [apply lookup_snoc|].
    split; [exact Hpu|]. split; [exact Ht|]. left. reflexivity. }
  destruct e as [selected|selected|newValue| |ms]; [destruct He| | | |]; cbn [step].
  - apply Hset. reflexivity.
  - rewrite Hf. destruct (valueFieldShown f); [|exact Hsame].
    apply Hset. reflexivity.
  - destruct (removeDisabled props); [exact Hsame|].
    eexists _, f. split; [reflexivity|]. split; [exact Hf|]. split; [exact Hp|].
    split; [exact Ht|]. right. reflexivity.
  - unfold elapse. rewrite Ht. exact Hsame.
Qed.

(** X8. A row that is mounted without a column never submits anything as
    long as no column is selected: whatever operators and values are
    chosen, whatever is clicked and however much time passes, no timer is
    set and [onSubmit] is not called. *)
Theorem row_without_column_never_submits (props : Props) (events : list Event) :
  ~ non_empty (path (prop_value props)) ->
  Forall no_column_change events ->
  exists s,
    run props (mount props) events = Some s
    /\ timeout s = None
    /\ forall f, OnSubmit f ∉ calls s.
Proof.
  intros Hp Hev.
  assert (H0 : exists f,
             store (mount props) !! filter_ref (mount props) = Some f
             /\ ~ non_empty (path f) /\ timeout (mount props) = None
             /\ forall g, OnSubmit g ∉ calls (mount props)).
  { rewrite (mount_not_eligible props (not_eligible_without_path _ Hp)).
    exists (prop_value props). simpl. repeat split; auto.
    intros g Hin. inversion Hin. }
  revert H0. generalize (mount props) as s.
  induction Hev as [|e rest He Hrest IH]; intros s (f & Hf & Hpf & Ht & Hc); simpl.
  - eauto.
  - destruct (step_without_column props s e f He Hf Hpf Ht)
      as (s1 & f1 & Hstep & Hf1 & Hp1 & Ht1 & Hc1).
    rewrite Hstep. simpl. apply IH. exists f1. split; [exact Hf1|].
    split; [exact Hp1|]. split; [exact Ht1|].
    intros g Hin. destruct Hc1 as [Hc1|Hc1]; rewrite Hc1 in Hin.
    + exact (Hc g Hin).
    + apply elem_of_app in Hin as [Hin|Hin]; [exact (Hc g Hin)|].
      apply list_elem_of_singleton in Hin. discriminate.
Qed.

Lemma step_removals props s e s' :
  step props s e = Some s' ->
  calls s' = calls s
  \/ (exists f, calls s' = calls s ++ [OnSubmit f])
  \/ (removeDisabled props = false
      /\ calls s' = calls s ++ [OnRemove (prop_value props)]).
Proof.
  intros Hstep. destruct e as [selected|selected|newValue| |ms]; simpl in Hstep.
  - injection Hstep as <-. left. apply setFilter_calls.
  - injection Hstep as <-. left. apply setFilter_calls.
  - destruct (store s !! filter_ref s) as [f|]; [|injection Hstep as <-; auto].
    destruct (valueFieldShown f); injection Hstep as <-; [|auto].
    left. apply setFilter_calls.
  - destruct (removeDisabled props) eqn:Hd; injection Hstep as <-; auto.
  - apply elapse_calls in Hstep as (_ & [[Hc _]|(_ & _ & f & Hc)]); eauto.
Qed.

(** X9. In every run of a mounted row, whatever was edited in the row, each
    call of [onRemove] carries the filter value that the row was given,
    and there is none at all while the remove button is disabled. *)
Theorem removals_report_given_value (props : Props) (events : list Event) :
  exists s,
    run props (mount props) events = Some s
    /\ forall f,
         OnRemove f ∈ calls s ->
         f = prop_value props /\ removeDisabled props = false.
Proof.
  assert (H0 : forall f, OnRemove f ∈ calls (mount props) ->
                         f = prop_value props /\ removeDisabled props = false).
  { intros f Hin. unfold mount in Hin. rewrite validationEffect_calls in Hin.
    inversion Hin. }
  pose proof (mount_consistent props) as Hc0.
  revert H0 Hc0. generalize (mount props) as s.
  induction events as [|e rest IH]; intros s H Hc; simpl.
  - eauto.
  - destruct (step_consistent props s e Hc) as (s1 & Hstep & Hc1).
    rewrite Hstep. simpl. apply IH; [|exact Hc1].
    intros f Hin.
    destruct (step_removals props s e s1 Hstep) as [Hcs|[[g Hcs]|[Hd Hcs]]];
      rewrite Hcs in Hin; [exact (H f Hin)| |];
      apply elem_of_app in Hin as [Hin|Hin]; try exact (H f Hin);
      apply list_elem_of_singleton in Hin; [discriminate|].
    injection Hin as ->. auto.
Qed.

(** ** The submitted object is the state's object *)

(** X10. [handleSubmit] writes into the object that it is given. When the
    pending timer holds the filter of the state and its value is falsy,
    then after the submission the state's own filter has the value [null],
    although the component has not rendered again and shows no error; the
    next choice of an operator that is no existence check copies the
    [null], so that the row is flagged with a missing value and nothing is
    scheduled. *)
Theorem submission_overwrites_state_filter
    (props : Props) (s : State) (f : Filter) (remaining : nat)
    (selected : OperatorOption) :
  store s !! filter_ref s = Some f ->
  timeout s = Some (remaining, filter_ref s) ->
  complete f ->
  ToBoolean (value f) = false ->
  ~ existence_operator (Some (oo_value selected)) ->
  exists s1,
    step props s (Elapse remaining) = Some s1
    /\ calls s1 = calls s ++ [OnSubmit (set_value VNull f)]
    /\ store s1 !! filter_ref s1 = Some (set_value VNull f)
    /\ errors s1 = errors s
    /\ store (handleOperatorChange (Some selected) s1)
         !! filter_ref (handleOperatorChange (Some selected) s1)
       = Some (operatorChanged (Some selected) (set_value VNull f))
    /\ err_value (errors (handleOperatorChange (Some selected) s1)) = true
    /\ debounced (handleOperatorChange (Some selected) s1) = debounced s
    /\ timeout (handleOperatorChange (Some selected) s1) = None.
Proof.
  intros Hf Ht Hc Hv Hsel.
  assert (Hsub : as_submitted f = set_value VNull f).
  { unfold as_submitted. rewrite Hv. reflexivity. }
  assert (Hlt : filter_ref s < length (store s)) by (apply lookup_lt_Some in Hf; exact Hf).
  rewrite step_elapse.
  rewrite (elapse_fires s remaining (filter_ref s) f remaining Ht Hf
             (or_intror Hv) (le_n _)), Hsub.
  eexists. split; [reflexivity|]. cbn [calls store filter_ref errors].
  split; [reflexivity|].
  split; [apply list_lookup_insert_eq; exact Hlt|]. split; [reflexivity|].
  assert (Hne : ~ eligible (operatorChanged (Some selected) (set_value VNull f))).
  { unfold eligible. simpl. intros (_ & _ & [Hp|[Hb|He]]).
    - destruct Hp as (_ & Hp & _). congruence.
    - destruct Hb as [Hb|Hb]; discriminate Hb.
    - exact (Hsel He). }
  unfold handleOperatorChange.
  erewrite (setFilter_not_eligible _ (set_value VNull f));
    [|cbn [store filter_ref]; apply list_lookup_insert_eq; exact Hlt|exact Hne].
  cbn [store filter_ref errors debounced timeout].
  split; [apply lookup_snoc|]. split; [|split; reflexivity].
  apply includes_opt_false in Hsel. simpl in Hsel. simpl. rewrite Hsel. reflexivity.
Qed.

(** * Further properties of the operator options *)

Lemma operator_label_offered type o :
  operator_offered type o = true -> is_Some (operator_label type o).
Proof.
  unfold operator_offered, operator_label.
  destruct (typeLabelMap o) as [m|]; [|eauto].
  rewrite orb_true_iff. intros [H|H].
  - destruct type as [t|]; [destruct (truthy_string t), (m !! t)|]; eauto;
      destruct (m !! "default"); eauto; discriminate.
  - destruct type as [t|]; [|discriminate].
    apply andb_true_iff in H as [Ht H]. rewrite Ht.
    apply bool_decide_eq_true in H as [l ->]. eauto.
Qed.

(** X11. Every option of the operator select has a label: for an operator
    that passes the filter, the label expression never yields
    [undefined], whatever the catalog and the data type are. *)
Theorem operator_options_labels_defined
    (OPERATORS : list Operator) (type : option string) :
  Forall (fun opt => is_Some (oo_label opt)) (getOperatorOptions OPERATORS type).
Proof.
  apply Forall_forall. intros opt Hin. unfold getOperatorOptions in Hin.
  apply list_elem_of_In, in_map_iff in Hin as (o & <- & Ho).
  apply filter_In in Ho as [_ Hoff]. simpl.
  apply operator_label_offered, Hoff.
Qed.

Lemma operator_offered_mono type o :
  operator_offered None o = true -> operator_offered type o = true.
Proof.
  unfold operator_offered. destruct (typeLabelMap o) as [m|]; [|auto].
  rewrite !orb_true_iff. intros [H|H]; [auto|discriminate].
Qed.

Lemma offered_values_sublist OPERATORS type :
  map oo_value (getOperatorOptions OPERATORS type)
    `sublist_of` map op_value OPERATORS.
Proof.
  unfold getOperatorOptions. induction OPERATORS as [|o rest IH]; simpl.
  - constructor.
  - destruct (operator_offered type o); simpl.
    + apply sublist_skip, IH.
    + apply sublist_cons, IH.
Qed.

(** X12. The operator options are taken from the catalog in its order,
    none twice when the catalog has no operator twice; and a data type
    only adds options: the options of a column without a data type are
    among those of every column, in the same order. *)
Theorem operator_options_in_catalog_order
    (OPERATORS : list Operator) (type : option string) :
  map oo_value (getOperatorOptions OPERATORS type)
    `sublist_of` map op_value OPERATORS
  /\ map oo_value (getOperatorOptions OPERATORS None)
       `sublist_of` map oo_value (getOperatorOptions OPERATORS type)
  /\ (NoDup (map op_value OPERATORS) ->
      NoDup (map oo_value (getOperatorOptions OPERATORS type))).
Proof.
  split; [apply offered_values_sublist|]. split.
  - unfold getOperatorOptions. induction OPERATORS as [|o rest IH]; simpl.
    + constructor.
    + destruct (operator_offered None o) eqn:E.
      * rewrite (operator_offered_mono type o E). simpl. apply sublist_skip, IH.
      * destruct (operator_offered type o); simpl; [apply sublist_cons|]; exact IH.
  - intros Hnd. exact (sublist_NoDup _ _ Hnd (offered_values_sublist OPERATORS type)).
Qed.

(** * Further properties of the table *)

(** ** "Show all" *)

Lemma Object_keys_lookup {A} (m : gmap string A) k :
  k ∈ Object_keys m <-> is_Some (m !! k).
Proof.
  unfold Object_keys. rewrite list_elem_of_fmap. split.
  - intros ([k' v] & -> & Hin). apply elem_of_map_to_list in Hin. eauto.
  - intros [v Hv]. exists (k, v). split; [reflexivity|].
    apply elem_of_map_to_list, Hv.
Qed.

Lemma foldl_insert_false_lookup keys (acc : gmap string bool) k :
  foldl (fun prev key => <[key := false]> prev) acc keys !! k =
  if decide (k ∈ keys) then Some false else acc !! k.
Proof.
  revert acc. induction keys as [|key keys IH]; intros acc; cbn [foldl].
  - destruct (decide (k ∈ [])) as [H|_]; [inversion H|reflexivity].
  - rewrite IH.
    destruct (decide (k ∈ keys)) as [Hin|Hin],
      (decide (k ∈ key :: keys)) as [Hin'|Hin']; try reflexivity.
    + destruct Hin'. apply elem_of_cons. auto.
    + apply elem_of_cons in Hin' as [->|Hin']; [|contradiction].
      apply lookup_insert_eq.
    + apply lookup_insert_ne. intros ->. apply Hin', elem_of_cons. auto.
Qed.

Lemma showAll_fmap (hidden : gmap string bool) :
  showAll hidden = (fun _ => false) <$> hidden.
Proof.
  apply map_eq. intros k. unfold showAll.
  rewrite foldl_insert_false_lookup, lookup_fmap, lookup_empty.
  destruct (decide (k ∈ Object_keys hidden)) as [Hin|Hin].
  - apply Object_keys_lookup in Hin as [v ->]. reflexivity.
  - destruct (hidden !! k) as [v|] eqn:E; [|reflexivity].
    destruct Hin. apply Object_keys_lookup. eauto.
Qed.

(** X13. The updater of "show all" keeps every column of the map and sets
    each to [false]: it does not add or drop a key, after it all columns
    are visible (the button is then disabled), and applying it again
    changes nothing. *)
Theorem showAll_unhides_every_column (hidden : gmap string bool) :
  (forall k, showAll hidden !! k = (fun _ => false) <$> hidden !! k)
  /\ dom (showAll hidden) = dom hidden
  /\ allColumnsVisible (showAll hidden) = true
  /\ showAll (showAll hidden) = showAll hidden.
Proof.
  split; [|split; [|split]].
  - intros k. rewrite showAll_fmap, lookup_fmap. reflexivity.
  - rewrite showAll_fmap. apply dom_fmap_L.
  - apply showAll_allColumnsVisible.
  - rewrite !showAll_fmap, <- map_fmap_compose. reflexivity.
Qed.

(** ** Footer rows *)

Lemma defined_false {A} (o : option A) : defined o = false <-> o = None.
Proof. destruct o; simpl; split; congruence. Qed.

(** X14. No footer is rendered at all exactly when no flattened column has
    a footer and no entry of the structure has both a column group and a
    footer. Without a group footer row every cell of the plain row spans
    one row. A group footer row that is rendered holds at least one cell,
    and each of its cells spans as many columns as its group has and has
    no row span. *)
Theorem footer_rows_shape (st : TableState) :
  (renderFooter st = None <->
   (forall struct, struct ∈ flattened st -> struct_footer struct = None)
   /\ (forall struct, struct ∈ structure st ->
         colGroup struct = None \/ col_footer struct = None))
  /\ (forall cells cell,
        renderFooter st ≫= plainRow = Some cells ->
        renderFooter st ≫= groupRow = None ->
        cell ∈ cells -> rowSpan cell = Some 1)
  /\ (forall entries,
        renderFooter st ≫= groupRow = Some entries ->
        (exists cell, Some cell ∈ entries)
        /\ forall cell,
             Some cell ∈ entries ->
             rowSpan cell = None
             /\ exists struct group,
                  struct ∈ structure st /\ colGroup struct = Some group
                  /\ cell_key cell = col_key struct
                  /\ colSpan cell = Some (length group)).
Proof.
  split; [|split].
  - unfold renderFooter.
    destruct (hasFooter st) eqn:Hf, (hasColGroupFooter st) eqn:Hg; simpl;
      (split; [try discriminate|]).
    + intros [H _]. apply hasFooter_true in Hf as (struct & Hin & [x Hx]).
      rewrite (H struct Hin) in Hx. discriminate.
    + intros [H _]. apply hasFooter_true in Hf as (struct & Hin & [x Hx]).
      rewrite (H struct Hin) in Hx. discriminate.
    + intros [_ H].
      apply hasColGroupFooter_true in Hg as (struct & Hin & [x Hx] & [y Hy]).
      destruct (H struct Hin); congruence.
    + intros _. split.
      * intros struct Hin. destruct (struct_footer struct) eqn:E; [|reflexivity].
        assert (hasFooter st = true) by (apply hasFooter_true; eauto).
        congruence.
      * intros struct Hin.
        destruct (colGroup struct) eqn:E1; [|auto].
        destruct (col_footer struct) eqn:E2; [|auto].
        assert (hasColGroupFooter st = true)
          by (apply hasColGroupFooter_true; exists struct; eauto).
        congruence.
    + reflexivity.
  - intros cells cell. unfold renderFooter.
    destruct (hasFooter st) eqn:Hf, (hasColGroupFooter st) eqn:Hg; simpl;
      try discriminate.
    intros [= <-] _ Hin.
    apply list_elem_of_In, in_map_iff in Hin as (struct & <- & _).
    unfold plainFooterCell. simpl. rewrite Hg. reflexivity.
  - intros entries. unfold renderFooter.
    destruct (hasColGroupFooter st) eqn:Hg;
      [|destruct (hasFooter st); simpl; discriminate].
    rewrite orb_true_r. simpl. intros [= <-]. split.
    + apply hasColGroupFooter_true in Hg as (struct & Hin & [group Hg] & [f Hf]).
      eexists. apply list_elem_of_In, in_map_iff. exists struct.
      split; [|apply list_elem_of_In; exact Hin].
      unfold groupFooterCell. rewrite Hg, Hf. reflexivity.
    + intros cell Hin.
      apply list_elem_of_In, in_map_iff in Hin as (struct & Hcell & Hin).
      unfold groupFooterCell in Hcell.
      destruct (colGroup struct) as [group|] eqn:E1; [|discriminate].
      destruct (col_footer struct) as [f|] eqn:E2; [|discriminate].
      injection Hcell as <-. simpl. split; [reflexivity|].
      exists struct, group. split; [apply list_elem_of_In; exact Hin|]. auto.
Qed.

(** ** The selection footer *)

(** X15. The "Clear Selection" button is disabled exactly when no row is
    selected, the count that is shown is the number of selected rows, and
    the selection that the button's handler passes to the update interface
    is one for which the button is disabled. *)
Theorem clear_selection_disabled_iff_empty
    (selectedRows : gmap string Row) (log : list UpdateCall) :
  (clearSelectionDisabled selectedRows = true <-> selectedRows = ∅)
  /\ selectedCount selectedRows = size selectedRows
  /\ (clearSelectionDisabled selectedRows = true <-> selectedCount selectedRows = 0)
  /\ exists rows,
       handleClearSelection log = log ++ [UpdateSelectedRows rows]
       /\ clearSelectionDisabled rows = true.
Proof.
  unfold clearSelectionDisabled, selectedCount.
  split; [|split; [|split]].
  - rewrite Nat.eqb_eq. apply Object_values_nil.
  - unfold Object_values. rewrite length_fmap. apply length_map_to_list.
  - apply Nat.eqb_eq.
  - exists ∅. split; reflexivity.
Qed.

(** * The further properties at concrete inputs *)

Lemma age_filter_complete : complete age_filter.
Proof. split; eexists; (split; [reflexivity|discriminate]). Qed.

Lemma equals_not_existence : ~ existence_operator (Some "=").
Proof. intros (op & [= <-] & H). discriminate H. Qed.

Lemma name_missing_complete : complete name_missing.
Proof. split; eexists; (split; [reflexivity|discriminate]). Qed.

Lemma value_edit_submitted_after_wait_witness :
  ToBoolean (VNum (number_of_Z 30 false)) = true
  /\ exists s1 s2,
       step age_row (mount age_row) (ValueChange (VNum (number_of_Z 30 false)))
       = Some s1
       /\ calls s1 = []
       /\ step age_row s1 (Elapse WAIT) = Some s2
       /\ calls s2
          = [OnSubmit (valueChanged (VNum (number_of_Z 30 false)) age_filter)].
Proof.
  split; [reflexivity|].
  destruct (value_edit_submitted_after_wait age_row (mount age_row) age_filter
              (VNum (number_of_Z 30 false)))
    as (s1 & Hs1 & Hc1 & _ & s2 & Hs2 & Hc2 & _).
  - vm_compute. reflexivity.
  - exact age_filter_complete.
  - exact equals_not_existence.
  - reflexivity.
  - exists s1, s2. auto.
Defined.


Lemma invalid_edit_keeps_pending_submission_witness :
  timeout (mount name_row) = Some (WAIT, 0)
  /\ ~ eligible (operatorChanged None name_missing)
  /\ exists s',
       elapse WAIT (setFilter (operatorChanged None) (mount name_row)) = Some s'
       /\ calls s' = [OnSubmit (as_submitted name_missing)].
Proof.
  assert (H : ~ eligible (operatorChanged None name_missing)).
  { intros (_ & (op & Hop & _) & _). discriminate Hop. }
  split; [vm_compute; reflexivity|]. split; [exact H|].
  destruct (invalid_edit_keeps_pending_submission (mount name_row)
              name_missing name_missing (operatorChanged None) WAIT 0)
    as (_ & _ & s' & Hs' & Hc).
  - vm_compute. reflexivity.
  - vm_compute. reflexivity.
  - vm_compute. reflexivity.
  - exact name_missing_complete.
  - exact H.
  - exists s'. auto.
Defined.

Lemma remove_keeps_pending_submission_witness :
  removeDisabled name_row = false
  /\ exists s',
       run name_row (mount name_row) [RemoveClick; Elapse WAIT] = Some s'
       /\ calls s'
          = calls (mount name_row)
            ++ [OnRemove (prop_value name_row); OnSubmit (as_submitted name_missing)].
Proof.
  split; [reflexivity|].
  apply (remove_keeps_pending_submission name_row (mount name_row) name_missing
           WAIT 0).
  - vm_compute. reflexivity.
  - vm_compute. reflexivity.
  - exact name_missing_complete.
  - reflexivity.
Defined.

Lemma column_change_schedules_iff_existence_default_witness :
  store (mount age_row) !! filter_ref (mount age_row) = Some age_filter
  /\ (debounced (handleColumnChange (Some name_column) (mount age_row))
      = debounced (mount age_row)
        ++ [filter_ref (handleColumnChange (Some name_column) (mount age_row))]
      <-> exists c,
            Some name_column = Some c /\ fo_value c <> ""
            /\ existence_operator (defaultOperator c)).
Proof.
  split; [vm_compute; reflexivity|].
  apply (column_change_schedules_iff_existence_default (mount age_row) age_filter
           (Some name_column)).
  vm_compute. reflexivity.
Defined.

Lemma row_without_column_never_submits_witness :
  ~ non_empty (path (prop_value empty_row))
  /\ exists s,
       run empty_row (mount empty_row)
           [OperatorChange (Some exists_option); ValueChange (VStr "x");
            Elapse 1000; RemoveClick] = Some s
       /\ timeout s = None
       /\ forall f, OnSubmit f ∉ calls s.
Proof.
  assert (H : ~ non_empty (path (prop_value empty_row))).
  { intros (p & Hp & _). discriminate Hp. }
  split; [exact H|].
  apply (row_without_column_never_submits empty_row
           [OperatorChange (Some exists_option); ValueChange (VStr "x");
            Elapse 1000; RemoveClick] H).
  repeat constructor.
Defined.

Lemma submission_overwrites_state_filter_witness :
  timeout (mount zero_row) = Some (WAIT, filter_ref (mount zero_row))
  /\ ToBoolean (value age_zero) = false
  /\ ~ existence_operator (Some (oo_value greater_option))
  /\ exists s1,
       step zero_row (mount zero_row) (Elapse WAIT) = Some s1
       /\ calls s1 = calls (mount zero_row) ++ [OnSubmit (set_value VNull age_zero)]
       /\ store s1 !! filter_ref s1 = Some (set_value VNull age_zero)
       /\ err_value (errors (handleOperatorChange (Some greater_option) s1)) = true.
Proof.
  assert (H : ~ existence_operator (Some (oo_value greater_option))).
  { intros (op & [= <-] & Hin). discriminate Hin. }
  split; [vm_compute; reflexivity|]. split; [reflexivity|]. split; [exact H|].
  destruct (submission_overwrites_state_filter zero_row (mount zero_row) age_zero
              WAIT greater_option)
    as (s1 & Hs1 & Hc1 & Hst & _ & _ & He & _).
  - vm_compute. reflexivity.
  - vm_compute. reflexivity.
  - split; eexists; (split; [reflexivity|discriminate]).
  - reflexivity.
  - exact H.
  - exists s1. auto.
Defined.
